(** * Babli Bua wedding assistant: the chat endpoint of [server.js]

    A shallow embedding of [server.js] (the Express handler of
    [POST /api/chat], the sheet loader and its cache) and the properties of
    the phone-based booking lookup, of the cache and of the error path.

    Conventions of the embedding:
    - a JavaScript string is the list of its UTF-16 code units ([list N]);
    - a value read from a sheet cell, from [process.env] or from the request
      body is [undefined], [null] or a string ([jsval]);
    - code that can throw lives in the [result] monad, the request handler
      in a state-and-exception monad over the module-level variables. *)

From Stdlib Require Import ZArith NArith List Bool Lia String Ascii Decimal DecimalString.
From stdpp Require Import base option list gmap.

Local Open Scope N_scope.

(** ** Strings *)

Abbreviation jsstring := (list N).

(** An ASCII literal of the source, as code units. *)
Definition lit (s : string) : jsstring :=
  List.map N_of_ascii (list_ascii_of_string s).

Definition quote : N := 34.   (* the double quote *)
Definition newline : N := 10.
Definition plusSign : N := 43.

(** [\d] of a JavaScript regular expression: the ASCII digits only. *)
Definition isDigit (c : N) : bool := (48 <=? c) && (c <=? 57).

(** [s.length === 0], the only falsy string. *)
Definition isEmpty {A} (s : list A) : bool :=
  match s with [] => true | _ => false end.

Fixpoint streq (s t : jsstring) : bool :=
  match s, t with
  | [], [] => true
  | c :: s', d :: t' => (c =? d) && streq s' t'
  | _, _ => false
  end.

(** [s.endsWith(q)]: [q] is no longer than [s] and the last [q.length]
    code units of [s] are [q]. *)
Definition endsWith (s q : jsstring) : bool :=
  (length q <=? length s)%nat && streq (skipn (length s - length q) s) q.

(** [s.slice(0, n)] for [n >= 0]. *)
Definition slice0 (n : nat) (s : jsstring) : jsstring := firstn n s.

(** WhiteSpace and LineTerminator code units, as [String.prototype.trim]
    removes them. *)
Definition isWhiteSpace (c : N) : bool :=
  (c =? 9) || (c =? 10) || (c =? 11) || (c =? 12) || (c =? 13) || (c =? 32)
  || (c =? 160) || (c =? 5760) || ((8192 <=? c) && (c <=? 8202))
  || (c =? 8232) || (c =? 8233) || (c =? 8239) || (c =? 8287)
  || (c =? 12288) || (c =? 65279).

Fixpoint trimStart (s : jsstring) : jsstring :=
  match s with
  | c :: s' => if isWhiteSpace c then trimStart s' else s
  | [] => []
  end.

Fixpoint trimEnd (s : jsstring) : jsstring :=
  match s with
  | [] => []
  | c :: s' =>
      match trimEnd s' with
      | [] => if isWhiteSpace c then [] else [c]
      | t => c :: t
      end
  end.

Definition trim (s : jsstring) : jsstring := trimEnd (trimStart s).

(** Decimal rendering of a non-negative integer, as [String(n)] gives it. *)
Definition decimal (n : N) : jsstring :=
  lit (NilZero.string_of_uint (N.to_uint n)).

(** ** Values and exceptions *)

Inductive jsval : Type :=
| JUndefined
| JNull
| JString (s : jsstring).

(** [new Error(msg)] and the [TypeError] of a method call on [undefined] or
    [null]. *)
Inductive exn : Type :=
| TypeError
| Error (msg : jsstring).

Inductive result (A : Type) : Type :=
| Return (a : A)
| Throw (e : exn).
Arguments Return {A} a.
Arguments Throw {A} e.

Definition rbind {A B} (m : result A) (k : A -> result B) : result B :=
  match m with
  | Return a => k a
  | Throw e => Throw e
  end.

Declare Scope result_scope.
Delimit Scope result_scope with result.
Notation "'do' x <- m ; k" := (rbind m (fun x => k))
  (at level 10, x name, m at level 100, k at level 200) : result_scope.
Local Open Scope result_scope.

(** Truthiness of a value: [undefined], [null] and the empty string are
    falsy. *)
Definition truthy (v : jsval) : bool :=
  match v with
  | JString s => negb (isEmpty s)
  | _ => false
  end.

(** [a || b] *)
Definition jsOr (a b : jsval) : jsval := if truthy a then a else b.

(** [a ?? b] *)
Definition jsNullish (a b : jsval) : jsval :=
  match a with
  | JString _ => a
  | _ => b
  end.

(** [${v}] inside a template literal. *)
Definition templ (v : jsval) : jsstring :=
  match v with
  | JUndefined => lit "undefined"
  | JNull => lit "null"
  | JString s => s
  end.

(** [v.replace(/\D/g, emptyString)]: a method call, which throws on
    [undefined] and [null]. *)
Definition replaceNonDigits (v : jsval) : result jsstring :=
  match v with
  | JString s => Return (List.filter isDigit s)
  | _ => Throw TypeError
  end.

(** [v.toLowerCase()], over the case mapping [lower] of the runtime. *)
Definition callToLowerCase (lower : jsstring -> jsstring) (v : jsval)
  : result jsstring :=
  match v with
  | JString s => Return (lower s)
  | _ => Throw TypeError
  end.

(** [v?.toLowerCase()] *)
Definition optToLowerCase (lower : jsstring -> jsstring) (v : jsval) : jsval :=
  match v with
  | JString s => JString (lower s)
  | _ => JUndefined
  end.

(** [a === b] for a string [a]. *)
Definition strictEqStr (a : jsstring) (b : jsval) : bool :=
  match b with
  | JString s => streq a s
  | _ => false
  end.

(** [Array.prototype.find] with a callback that may throw: the first element
    on which the callback is truthy, [None] for [undefined]. *)
Fixpoint findM {A} (p : A -> result bool) (l : list A) : result (option A) :=
  match l with
  | [] => Return None
  | x :: l' =>
      do b <- p x;
      if b then Return (Some x) else findM p l'
  end.

(** ** Phone numbers *)

(** [normalizePhone(raw)] *)
Definition normalizePhone (raw : jsval) : result jsstring :=
  if negb (truthy raw) then Return []
  else replaceNonDigits raw.

(** [\d{10,13}], greedy: the longest run of at most 13 digits at the head of
    [s], if it has at least 10. *)
Fixpoint digitsUpTo (n : nat) (s : jsstring) : jsstring :=
  match n, s with
  | S n', c :: s' => if isDigit c then c :: digitsUpTo n' s' else []
  | _, _ => []
  end.

Definition matchDigits (s : jsstring) : option jsstring :=
  let d := digitsUpTo 13 s in
  if (10 <=? length d)%nat then Some d else None.

(** [/\+?\d{10,13}/] anchored at the head of [s]: the optional sign is tried
    first, and given up when the digits do not follow it. *)
Definition matchAt (s : jsstring) : option jsstring :=
  match s with
  | c :: s' =>
      if c =? plusSign then
        match matchDigits s' with
        | Some d => Some (c :: d)
        | None => matchDigits s
        end
      else matchDigits s
  | [] => matchDigits []
  end.

(** [userMessage.match(phoneRegex)]: the match at the leftmost position that
    has one; [None] is [null], [Some m] is the array whose element 0 is [m]. *)
Fixpoint phoneRegexMatch (s : jsstring) : option jsstring :=
  match matchAt s with
  | Some m => Some m
  | None =>
      match s with
      | [] => None
      | _ :: s' => phoneRegexMatch s'
      end
  end.

(** ** Data model *)

Module Event.
Record t : Type := Build {
  key : jsval; name : jsval; date : jsval; time : jsval;
  venue : jsval; address : jsval; mapLink : jsval; dressCode : jsval }.
End Event.

Module Hotel.
Record t : Type := Build {
  name : jsval; type : jsval; address : jsval; mapLink : jsval;
  priceRange : jsval; bookingLink : jsval; contactPerson : jsval;
  contactPhone : jsval; notes : jsval }.
End Hotel.

Module Guest.
Record t : Type := Build {
  phone : jsval; name : jsval; hotelName : jsval; roomNo : jsval;
  notes : jsval }.
End Guest.

Module Stay.
Record t : Type := Build {
  hotelName : jsval; address : jsval; mapLink : jsval; checkIn : jsval;
  checkOut : jsval; contactPerson : jsval; contactPhone : jsval }.
End Stay.

Module Emergency.
Record t : Type := Build { name : jsval; phone : jsval }.
End Emergency.

Record EventData : Type := {
  coupleNames : jsval;
  weddingName : jsval;
  city : jsval;
  events : list Event.t;
  hotels : list Hotel.t;
  guests : list Guest.t;
  stay : option Stay.t;
  emergencyContact : option Emergency.t }.

(** ** Booking lookup by phone (the first part of the handler) *)

(** The callback of [EVENT_DATA.guests.find]. *)
Definition guestMatches (normalizedQuery : jsstring) (g : Guest.t)
  : result bool :=
  do normalizedGuestPhone <- normalizePhone (Guest.phone g);
  Return (negb (isEmpty normalizedGuestPhone)
          && endsWith normalizedGuestPhone normalizedQuery).

(** [phoneMatch] and [guestInfo] as the handler computes them. *)
Definition lookupGuest (userMessage : jsstring) (guests : list Guest.t)
  : result (option jsstring * option Guest.t) :=
  let phoneMatch := phoneRegexMatch userMessage in
  match phoneMatch with
  | Some rawPhone =>
      if (0 <? length guests)%nat then
        do normalizedQuery <- normalizePhone (JString rawPhone);
        do guestInfo <- findM (guestMatches normalizedQuery) guests;
        Return (phoneMatch, guestInfo)
      else Return (phoneMatch, None)
  | None => Return (None, None)
  end.

(** The three outcomes the handler branches on. *)
Inductive Resolution : Type :=
| Found (g : Guest.t)
| NotFound
| NoPhoneMentioned.

Definition classify (r : option jsstring * option Guest.t) : Resolution :=
  match r with
  | (Some _, None) => NotFound          (* phoneMatch && !guestInfo *)
  | (_, Some g) => Found g              (* guestInfo *)
  | (None, None) => NoPhoneMentioned
  end.

Definition resolveBooking (userMessage : jsstring) (guests : list Guest.t)
  : result Resolution :=
  do r <- lookupGuest userMessage guests;
  Return (classify r).

(** ** Replies *)

Definition noBookingReply : jsstring :=
  trim ([newline]
    ++ lit "<strong>Hotel Booking:</strong>" ++ [newline]
    ++ lit "Aapke liye abhi tak koi hotel booking nahi hui hai." ++ [newline]
    ++ lit "Agar aapko stay arrange karwana hai, please directly family se contact karein. "
    ++ [55357; 56898] ++ [newline]).

(** [hotel?.f] *)
Definition hotelField (f : Hotel.t -> jsval) (hotel : option Hotel.t) : jsval :=
  match hotel with
  | Some h => f h
  | None => JUndefined
  end.

Definition naString : jsval := JString (lit "N/A").

Definition bookingTemplate (guestInfo : Guest.t) (hotel : option Hotel.t)
  : jsstring :=
  [newline]
  ++ lit "<strong>Booking Found for " ++ templ (Guest.name guestInfo)
  ++ lit ":</strong>" ++ [newline]
  ++ lit "<strong>Hotel:</strong> "
  ++ templ (jsOr (jsOr (hotelField Hotel.name hotel) (Guest.hotelName guestInfo))
                 naString)
  ++ [newline]
  ++ lit "<strong>Room:</strong> "
  ++ templ (jsOr (Guest.roomNo guestInfo) naString) ++ [newline]
  ++ lit "<strong>Address:</strong> "
  ++ templ (jsOr (hotelField Hotel.address hotel)
                 (JString (lit "Address not available")))
  ++ [newline]
  ++ lit "<strong>Map:</strong> "
  ++ templ (jsOr (hotelField Hotel.mapLink hotel)
                 (JString (lit "Map link not available")))
  ++ [newline]
  ++ lit "<strong>Contact:</strong> "
  ++ templ (jsOr (hotelField Hotel.contactPerson hotel) naString)
  ++ lit " ("
  ++ templ (jsOr (hotelField Hotel.contactPhone hotel) naString)
  ++ lit ")" ++ [newline]
  ++ lit "<strong>Notes:</strong> "
  ++ templ (jsOr (jsOr (Guest.notes guestInfo) (hotelField Hotel.notes hotel))
                 (JString (lit "Enjoy your stay! " ++ [55357; 56842])))
  ++ [newline].

Definition bookingReply (guestInfo : Guest.t) (hotel : option Hotel.t)
  : jsstring :=
  trim (bookingTemplate guestInfo hotel).

(** ** The outside world and the module-level state *)

(** A record of a parsed sheet: column name to cell. *)
Abbreviation Row := (gmap (list N) (list N)).

(** [row.k] *)
Definition prop (row : Row) (k : string) : jsval :=
  match row !! lit k with
  | Some s => JString s
  | None => JUndefined
  end.

Record HttpResponse : Type := {
  ok : bool;
  status : N;
  text : jsstring }.

Record CompletionRequest : Type := {
  model : jsstring;
  systemContent : jsstring;
  userContent : jsstring;
  max_tokens : N }.

(** The four variables of [process.env] the loader reads. *)
Record Env : Type := {
  META_CSV_URL : jsval;
  EVENTS_CSV_URL : jsval;
  HOTELS_CSV_URL : jsval;
  GUESTS_CSV_URL : jsval }.

(** What a request observes of its surroundings: the clock ([Date.now()],
    whole milliseconds, which a double holds exactly), the environment, the
    remote sheets behind [fetch], and the completion API.
    [chatCompletion] stands for the call of [client.chat.completions.create]
    followed by [completion.choices[0]?.message?.content]: the content value,
    or whatever either of the two throws. *)
Record World : Type := {
  dateNow : Z;
  processEnv : Env;
  fetch : jsstring -> result HttpResponse;
  chatCompletion : CompletionRequest -> result jsval }.

(** The module-level variables [cachedEventData] and [lastLoadedMs], and the
    trace of what the process has done so far: the URLs it fetched, the
    errors it wrote with [console.error], the completion requests it sent
    (most recent first). *)
Record Server : Type := {
  cachedEventData : option EventData;
  lastLoadedMs : Z;
  fetched : list jsstring;
  consoleErrors : list exn;
  completions : list CompletionRequest }.

Definition initialServer : Server :=
  {| cachedEventData := None; lastLoadedMs := 0%Z;
     fetched := []; consoleErrors := []; completions := [] |}.

Definition CACHE_TTL_MS : Z := (5 * 60 * 1000)%Z.

(** Computations of the process: they read and write [Server] and may
    throw; what was written before a throw stays written. *)
Definition proc (A : Type) : Type := Server -> result A * Server.

Definition pret {A} (a : A) : proc A := fun st => (Return a, st).

Definition pthrow {A} (e : exn) : proc A := fun st => (Throw e, st).

Definition pbind {A B} (m : proc A) (k : A -> proc B) : proc B :=
  fun st =>
    match m st with
    | (Return a, st') => k a st'
    | (Throw e, st') => (Throw e, st')
    end.

Definition plift {A} (r : result A) : proc A := fun st => (r, st).

Declare Scope proc_scope.
Delimit Scope proc_scope with proc.
Notation "'await' x <- m ; k" := (pbind m (fun x => k))
  (at level 10, x name, m at level 100, k at level 200) : proc_scope.
Local Open Scope proc_scope.

Definition logFetch (url : jsstring) : proc unit :=
  fun st =>
    (Return tt,
     {| cachedEventData := cachedEventData st; lastLoadedMs := lastLoadedMs st;
        fetched := url :: fetched st; consoleErrors := consoleErrors st;
        completions := completions st |}).

Definition consoleError (e : exn) : proc unit :=
  fun st =>
    (Return tt,
     {| cachedEventData := cachedEventData st; lastLoadedMs := lastLoadedMs st;
        fetched := fetched st; consoleErrors := e :: consoleErrors st;
        completions := completions st |}).

Definition logCompletion (r : CompletionRequest) : proc unit :=
  fun st =>
    (Return tt,
     {| cachedEventData := cachedEventData st; lastLoadedMs := lastLoadedMs st;
        fetched := fetched st; consoleErrors := consoleErrors st;
        completions := r :: completions st |}).

(** [cachedEventData = data; lastLoadedMs = now;] *)
Definition storeCache (data : EventData) (now : Z) : proc unit :=
  fun st =>
    (Return tt,
     {| cachedEventData := Some data; lastLoadedMs := now;
        fetched := fetched st; consoleErrors := consoleErrors st;
        completions := completions st |}).

Definition readCache : proc (option EventData * Z) :=
  fun st => (Return (cachedEventData st, lastLoadedMs st), st).

(** The reply of an HTTP response and its status. *)
Record Response : Type := {
  statusCode : N;
  reply : jsstring }.

Definition genericApology : jsstring :=
  lit "Oops, Babli Bua ko data load karne mein issue aa gaya. Please thodi der baad try karo.".

Definition modelFallback : jsstring :=
  lit "Sorry, abhi main answer nahi de paa rahi hoon.".

Definition configErrorMessage : jsstring :=
  lit "META_CSV_URL or EVENTS_CSV_URL missing in .env".

(** [v.toString()] *)
Definition callToString (v : jsval) : result jsstring :=
  match v with
  | JString s => Return s
  | _ => Throw TypeError
  end.

(** [v?.trim()] *)
Definition optTrim (v : jsval) : jsval :=
  match v with
  | JString s => JString (trim s)
  | _ => JUndefined
  end.

(** [lines.join(newline)] *)
Fixpoint joinLines (lines : list jsstring) : jsstring :=
  match lines with
  | [] => []
  | [l] => l
  | l :: rest => l ++ [newline] ++ joinLines rest
  end.

Section Server.

(** [String.prototype.toLowerCase] of the runtime and [parse] of
    [csv-parse/sync] with the options of [loadCsv]. *)
Variable toLowerCase : jsstring -> jsstring.
Variable parse : jsstring -> result (list Row).

(** ** Loading the sheets *)

(** [loadCsv(url)] *)
Definition loadCsv (w : World) (url : jsstring) : proc (list Row) :=
  await _ <- logFetch url;
  await res <- plift (fetch w url);
  if negb (ok res) then
    pthrow (Error (lit "Failed to fetch CSV from " ++ url ++ lit ": "
                   ++ decimal (status res)))
  else plift (parse (text res)).

(** The loop that fills [meta]: [meta[row.field] = row.value ?? emptyString]
    for the rows whose [field] is truthy. *)
Definition metaOfRows (metaRows : list Row) : gmap (list N) jsval :=
  fold_left
    (fun meta row =>
       match prop row "field" with
       | JString f =>
           if isEmpty f then meta
           else <[f := jsNullish (prop row "value") (JString [])]> meta
       | _ => meta
       end)
    metaRows ∅.

(** [meta.k] *)
Definition metaProp (meta : gmap (list N) jsval) (k : string) : jsval :=
  match meta !! lit k with
  | Some v => v
  | None => JUndefined
  end.

Definition eventOfRow (r : Row) : Event.t :=
  Event.Build (prop r "key") (prop r "name") (prop r "date") (prop r "time")
    (prop r "venue") (prop r "address") (prop r "mapLink") (prop r "dressCode").

Definition hotelOfRow (h : Row) : Hotel.t :=
  Hotel.Build (prop h "name") (prop h "type") (prop h "address")
    (prop h "mapLink") (prop h "priceRange") (prop h "bookingLink")
    (prop h "contactPerson") (prop h "contactPhone") (prop h "notes").

Definition guestOfRow (g : Row) : Guest.t :=
  Guest.Build (prop g "phone") (prop g "name") (prop g "hotelName")
    (prop g "roomNo") (prop g "notes").

(** The [eventData] object the loader assembles from the four row sets. *)
Definition assemble (metaRows eventRows hotelsRows guestsRows : list Row)
  : EventData :=
  let meta := metaOfRows metaRows in
  {| coupleNames := jsOr (metaProp meta "coupleNames") (JString []);
     weddingName := jsOr (metaProp meta "weddingName") (JString []);
     city := jsOr (metaProp meta "city") (JString []);
     events := List.map eventOfRow eventRows;
     hotels := List.map hotelOfRow hotelsRows;
     guests := List.map guestOfRow guestsRows;
     stay :=
       if truthy (metaProp meta "hotelName") then
         Some (Stay.Build (metaProp meta "hotelName")
                 (metaProp meta "hotelAddress") (metaProp meta "hotelMapLink")
                 (metaProp meta "hotelCheckIn") (metaProp meta "hotelCheckOut")
                 (metaProp meta "hotelContactPerson")
                 (metaProp meta "hotelContactPhone"))
       else None;
     emergencyContact :=
       if truthy (metaProp meta "emergencyName") then
         Some (Emergency.Build (metaProp meta "emergencyName")
                 (metaProp meta "emergencyPhone"))
       else None |}.

(** [buildEventDataFromSheets()].  A truthy value is a string, on which
    [templ] is the identity. *)
Definition buildEventDataFromSheets (w : World) : proc EventData :=
  let metaUrl := META_CSV_URL (processEnv w) in
  let eventsUrl := EVENTS_CSV_URL (processEnv w) in
  let hotelsUrl := HOTELS_CSV_URL (processEnv w) in
  let guestsUrl := GUESTS_CSV_URL (processEnv w) in
  if negb (truthy metaUrl) || negb (truthy eventsUrl) then
    pthrow (Error configErrorMessage)
  else
    await metaRows <- loadCsv w (templ metaUrl);
    await eventRows <- loadCsv w (templ eventsUrl);
    await hotelsRows <-
      (if truthy hotelsUrl then loadCsv w (templ hotelsUrl) else pret []);
    await guestsRows <-
      (if truthy guestsUrl then loadCsv w (templ guestsUrl) else pret []);
    pret (assemble metaRows eventRows hotelsRows guestsRows).

(** [cachedEventData && now - lastLoadedMs < CACHE_TTL_MS] *)
Definition cacheIsFresh (now : Z) (c : option EventData * Z) : bool :=
  match c with
  | (Some _, last) => (now - last <? CACHE_TTL_MS)%Z
  | (None, _) => false
  end.

(** [getEventData()] *)
Definition getEventData (w : World) : proc EventData :=
  let now := dateNow w in
  await c <- readCache;
  match fst c, cacheIsFresh now c with
  | Some cached, true => pret cached
  | _, _ =>
      await data <- buildEventDataFromSheets w;
      await _ <- storeCache data now;
      pret data
  end.

(** ** The context document *)

Definition eventLine (idx : nat) (e : Event.t) : jsstring :=
  decimal (N.of_nat (idx + 1)) ++ lit ". " ++ templ (Event.name e)
  ++ lit " (" ++ templ (Event.key e) ++ lit ") on " ++ templ (Event.date e)
  ++ lit " at " ++ templ (Event.time e) ++ lit ", "
  ++ lit "Venue: " ++ templ (Event.venue e)
  ++ lit ", Address: " ++ templ (Event.address e)
  ++ lit ", Map: " ++ templ (Event.mapLink e)
  ++ lit ", Dress code: " ++ templ (Event.dressCode e).

Definition stayLine (s : Stay.t) : jsstring :=
  lit "STAY: Hotel " ++ templ (Stay.hotelName s) ++ lit ", "
  ++ templ (Stay.address s) ++ lit ", Map: " ++ templ (Stay.mapLink s)
  ++ lit ", " ++ lit "Check-in: " ++ templ (Stay.checkIn s)
  ++ lit ", Check-out: " ++ templ (Stay.checkOut s) ++ lit ", "
  ++ lit "Contact: " ++ templ (Stay.contactPerson s) ++ lit " ("
  ++ templ (Stay.contactPhone s) ++ lit ").".

Definition emergencyLine (c : Emergency.t) : jsstring :=
  lit "EMERGENCY CONTACT: " ++ templ (Emergency.name c) ++ lit ", Phone: "
  ++ templ (Emergency.phone c) ++ lit ".".

Definition hotelLine (idx : nat) (h : Hotel.t) : jsstring :=
  decimal (N.of_nat (idx + 1)) ++ lit ". " ++ templ (Hotel.name h)
  ++ lit " (" ++ templ (jsOr (Hotel.type h) (JString (lit "Hotel")))
  ++ lit ") - Address: " ++ templ (Hotel.address h) ++ lit ". "
  ++ lit "Map: " ++ templ (Hotel.mapLink h)
  ++ lit ". Price: " ++ templ (Hotel.priceRange h) ++ lit ". "
  ++ lit "Booking: " ++ templ (Hotel.bookingLink h)
  ++ lit ". Contact: " ++ templ (Hotel.contactPerson h) ++ lit " ("
  ++ templ (Hotel.contactPhone h) ++ lit "). Notes: " ++ templ (Hotel.notes h).

(** [buildContextFromEventData(EVENT_DATA)] *)
Definition buildContextFromEventData (EVENT_DATA : EventData) : jsstring :=
  joinLines
    ([ lit "Wedding: " ++ templ (weddingName EVENT_DATA) ++ lit " in "
         ++ templ (city EVENT_DATA);
       lit "Couple: " ++ templ (coupleNames EVENT_DATA);
       [];
       lit "EVENT SCHEDULE:" ]
     ++ imap eventLine (events EVENT_DATA)
     ++ [ [] ]
     ++ match stay EVENT_DATA with Some s => [stayLine s] | None => [] end
     ++ match emergencyContact EVENT_DATA with
        | Some c => [emergencyLine c]
        | None => []
        end
     ++ [ [] ]
     ++ (if (0 <? length (hotels EVENT_DATA))%nat then
           lit "HOTEL OPTIONS:" :: imap hotelLine (hotels EVENT_DATA)
         else [])).

(** ** The chat endpoint *)

(** The callback of [EVENT_DATA.hotels?.find]: the left operand is a plain
    method call on [h.name], the right one is guarded by [?.]. *)
Definition hotelMatches (guestInfo : Guest.t) (h : Hotel.t) : result bool :=
  do lowered <- callToLowerCase toLowerCase (Hotel.name h);
  Return (strictEqStr lowered
            (optToLowerCase toLowerCase (Guest.hotelName guestInfo))).

(** [EVENT_DATA.hotels?.find(...) || null] *)
Definition findHotel (hotels : list Hotel.t) (guestInfo : Guest.t)
  : result (option Hotel.t) :=
  findM (hotelMatches guestInfo) hotels.

Definition systemPrompt (EVENT_DATA : EventData) : jsstring :=
  trim ([newline] ++ joinLines
    [ lit "You are " ++ [quote] ++ lit "Babli" ++ [quote]
        ++ lit ", a friendly AI wedding assistant for the "
        ++ templ (weddingName EVENT_DATA) ++ lit ".";
      lit "You answer only questions about this wedding:";
      [];
      lit "- Function dates, timings, venues, dress code";
      lit "- Hotel stay details and general hotel options";
      lit "- How to reach venues and hotels (use map links)";
      lit "- Emergency/main contact person";
      [];
      lit "Formatting rules (very important):";
      lit "- Reply in a clean, multi-line format.";
      lit "- Use simple HTML <strong> only for labels like:";
      lit "  <strong>Mehendi Ceremony:</strong>";
      lit "  <strong>Date:</strong> 10 February 2025";
      lit "  <strong>Time:</strong> 11:00 AM";
      lit "  <strong>Venue:</strong> Green Leaf Lawn, Jaipur";
      lit "  <strong>Dress code:</strong> Green / Yellow Indian ethnic";
      lit "  <strong>Map:</strong> https://maps.google.com/...";
      lit "- For hotel info, you can respond like:";
      lit "  <strong>Hotel:</strong> Hotel Sunshine (Main Hotel)";
      lit "  <strong>Address:</strong> MI Road, Jaipur";
      lit "  <strong>Price range:</strong> " ++ [8377] ++ lit "3000" ++ [8211]
        ++ [8377] ++ lit "4500 per night";
      lit "  <strong>Booking link:</strong> https://bookinglink.com/...";
      lit "- Do NOT use markdown (" ++ lit "**bold**, [links](url)) or other HTML tags.";
      lit "- No bullet symbols like " ++ [8226]
        ++ lit ". Just plain text with line breaks.";
      lit "- Use light Hinglish (simple Hindi + English), friendly tone.";
      lit "- Only include information relevant to the guest's question.";
      lit "- If the question is not about this wedding, politely say you only know wedding details." ]
    ++ [newline]).

Definition userPrompt (contextString userMessage : jsstring) : jsstring :=
  trim ([newline]
    ++ lit "Here are all the current wedding details (from Google Sheets):"
    ++ [newline; newline]
    ++ contextString
    ++ [newline; newline]
    ++ lit "Guest message: " ++ [quote] ++ userMessage ++ [quote]
    ++ [newline; newline]
    ++ lit "Now answer as per the rules."
    ++ [newline]).

(** [(req.body.message || emptyString).toString().slice(0, 500)] *)
Definition userMessageOf (message : jsval) : result jsstring :=
  do s <- callToString (jsOr message (JString []));
  Return (slice0 500 s).

(** The request sent to the completion API. *)
Definition completionRequest (EVENT_DATA : EventData) (userMessage : jsstring)
  : CompletionRequest :=
  let contextString := buildContextFromEventData EVENT_DATA in
  {| model := lit "gpt-4o-mini";
     systemContent := systemPrompt EVENT_DATA;
     userContent := userPrompt contextString userMessage;
     max_tokens := 220 |}.

(** The call of the completion API and the reply made of its answer. *)
Definition askModel (w : World) (request : CompletionRequest) : proc Response :=
  await _ <- logCompletion request;
  await content <- plift (chatCompletion w request);
  pret {| statusCode := 200;
          reply := templ (jsOr (optTrim content) (JString modelFallback)) |}.

(** The part of the handler that runs once [userMessage] and [EVENT_DATA]
    are known (lines 215 to 324 of [server.js]). *)
Definition answer (w : World) (userMessage : jsstring) (EVENT_DATA : EventData)
  : proc Response :=
  await r <- plift (lookupGuest userMessage (guests EVENT_DATA));
  match r with
  | (Some _, None) =>
      pret {| statusCode := 200; reply := noBookingReply |}
  | (_, Some guestInfo) =>
      await hotel <- plift (findHotel (hotels EVENT_DATA) guestInfo);
      pret {| statusCode := 200; reply := bookingReply guestInfo hotel |}
  | (None, None) =>
      askModel w (completionRequest EVENT_DATA userMessage)
  end.

(** The body of the [try] block. *)
Definition chatBody (w : World) (message : jsval) : proc Response :=
  await userMessage <- plift (userMessageOf message);
  await EVENT_DATA <- getEventData w;
  answer w userMessage EVENT_DATA.

(** The handler of [POST /api/chat], for a request whose parsed body has
    [message] under its [message] key: the response it sends and the state
    it leaves. *)
Definition chat (w : World) (message : jsval) (st : Server)
  : Response * Server :=
  match chatBody w message st with
  | (Return r, st') => (r, st')
  | (Throw err, st') =>
      ({| statusCode := 500; reply := genericApology |},
       snd (consoleError err st'))
  end.

End Server.

(** * Notions used to state the properties *)

(** What [normalizePhone] returns: the digits of a string, nothing for
    [undefined] and [null]. *)
Definition normalized (v : jsval) : jsstring :=
  match v with
  | JString s => List.filter isDigit s
  | _ => []
  end.

(** The relation the lookup decides: the guest's normalized phone is
    non-empty and ends with the query [p]. *)
Definition phoneEndsWith (p : jsstring) (g : Guest.t) : Prop :=
  exists n, normalizePhone (Guest.phone g) = Return n
            /\ n <> [] /\ p `suffix_of` n.

(** The callback of the guest lookup as a total function. *)
Definition guestMatchesb (p : jsstring) (g : Guest.t) : bool :=
  negb (isEmpty (normalized (Guest.phone g)))
  && endsWith (normalized (Guest.phone g)) p.

(** The guest's stored phone, with every character that is not a digit
    taken away, is not empty and has [p] as a suffix.  (Stated with
    [normalized], not with the code's [normalizePhone].) *)
Definition storedDigitsEndWith (p : jsstring) (g : Guest.t) : Prop :=
  normalized (Guest.phone g) <> []
  /\ p `suffix_of` normalized (Guest.phone g).

(** A whole match of [/\+?\d{10,13}/]: an optional sign, then 10 to 13
    digits and nothing else. *)
Definition phoneLike (w : jsstring) : bool :=
  let d := match w with
           | c :: w' => if c =? plusSign then w' else w
           | [] => w
           end in
  forallb isDigit d && (10 <=? length d)%nat && (length d <=? 13)%nat.

(** The string that [(message || emptyString).toString()] evaluates to. *)
Definition messageString (message : jsval) : jsstring :=
  match message with
  | JString s => s
  | _ => []
  end.

(** The record [console.error(err)] leaves in the trace. *)
Definition withConsoleError (e : exn) (st : Server) : Server :=
  snd (consoleError e st).

Definition okResponse (body : jsstring) : Response :=
  {| statusCode := 200; reply := body |}.

Definition errorResponse : Response :=
  {| statusCode := 500; reply := genericApology |}.

(** What is replied for the content of a completion: the content with the
    white space around it removed, or the fallback sentence when the
    content is missing or nothing is left of it. *)
Definition shownCompletion (content : jsval) : jsstring :=
  match content with
  | JString s =>
      match trim s with
      | [] => modelFallback
      | c :: t => c :: t
      end
  | _ => modelFallback
  end.

(** The request for the model: model [gpt-4o-mini], the system prompt of
    the wedding, the user prompt made of the context document and of the
    message, at most 220 tokens. *)
Definition modelRequest (ED : EventData) (userMessage : jsstring)
  : CompletionRequest :=
  {| model := lit "gpt-4o-mini";
     systemContent := systemPrompt ED;
     userContent := userPrompt (buildContextFromEventData ED) userMessage;
     max_tokens := 220 |}.

(** What a request that goes to the model comes to, on the state [st]:
    the request is sent to the completion API (it is in the trace
    whatever the API does), and the reply is made of the content the API
    returns; what the API throws is thrown on. *)
Definition sentToModel (w : World) (request : CompletionRequest)
           (st : Server) : result Response * Server :=
  (match chatCompletion w request with
   | Return content =>
       Return {| statusCode := 200; reply := shownCompletion content |}
   | Throw err => Throw err
   end,
   {| cachedEventData := cachedEventData st;
      lastLoadedMs := lastLoadedMs st;
      fetched := fetched st;
      consoleErrors := consoleErrors st;
      completions := request :: completions st |}).

(** [v] if it is a non-empty string, [d] otherwise: what [${v || d}] shows
    for a non-empty literal [d]. *)
Definition fallback (v : jsval) (d : jsstring) : jsstring :=
  match v with
  | JString (c :: s) => c :: s
  | _ => d
  end.

(** The booking reply field by field: each value with its fallbacks, and
    the last line trimmed at its end. *)
Definition bookingShown (g : Guest.t) (hotel : option Hotel.t) : jsstring :=
  lit "<strong>Booking Found for " ++ templ (Guest.name g)
  ++ lit ":</strong>" ++ [newline]
  ++ lit "<strong>Hotel:</strong> "
  ++ fallback (hotelField Hotel.name hotel)
       (fallback (Guest.hotelName g) (lit "N/A"))
  ++ [newline]
  ++ lit "<strong>Room:</strong> "
  ++ fallback (Guest.roomNo g) (lit "N/A") ++ [newline]
  ++ lit "<strong>Address:</strong> "
  ++ fallback (hotelField Hotel.address hotel) (lit "Address not available")
  ++ [newline]
  ++ lit "<strong>Map:</strong> "
  ++ fallback (hotelField Hotel.mapLink hotel) (lit "Map link not available")
  ++ [newline]
  ++ lit "<strong>Contact:</strong> "
  ++ fallback (hotelField Hotel.contactPerson hotel) (lit "N/A")
  ++ lit " ("
  ++ fallback (hotelField Hotel.contactPhone hotel) (lit "N/A")
  ++ lit ")" ++ [newline]
  ++ lit "<strong>Notes:</strong>"
  ++ trimEnd (lit " "
              ++ fallback (Guest.notes g)
                   (fallback (hotelField Hotel.notes hotel)
                      (lit "Enjoy your stay! " ++ [55357; 56842]))
              ++ [newline]).

(** The callback of the hotel join on a hotel whose name is a string. *)
Definition hotelMatchesb (lower : jsstring -> jsstring) (g : Guest.t)
           (h : Hotel.t) : bool :=
  strictEqStr (lower (messageString (Hotel.name h)))
              (optToLowerCase lower (Guest.hotelName g)).

Definition hasName (h : Hotel.t) : Prop :=
  exists s, Hotel.name h = JString s.

(** [getEventData()] called once per world of [ws], in order. *)
Fixpoint getEventDataEach (parse : jsstring -> result (list Row))
         (ws : list World) (st : Server) : list (result EventData) * Server :=
  match ws with
  | [] => ([], st)
  | w :: ws' =>
      let (r, st1) := getEventData parse w st in
      let (rs, st2) := getEventDataEach parse ws' st1 in
      (r :: rs, st2)
  end.

(** [st1] is [st] after some fetches and nothing else. *)
Definition afterFetches (st st1 : Server) : Prop :=
  cachedEventData st1 = cachedEventData st
  /\ lastLoadedMs st1 = lastLoadedMs st
  /\ consoleErrors st1 = consoleErrors st
  /\ completions st1 = completions st
  /\ fetched st `suffix_of` fetched st1.

(** A computation that does nothing to the state but fetch. *)
Definition onlyFetches {A} (m : proc A) : Prop :=
  forall st, afterFetches st (snd (m st)).

(** * The page script (the client of the endpoint)

    The chat element is the list of its message nodes, in document order.
    A node stands for a [div.msg] with its one [div.bubble] child.  Its
    [markup] is the string the script assigns to the bubble's [innerHTML];
    what the bubble then contains is the browser's parse of that string,
    which is not modelled.  Nodes are told apart by the order of their
    creation ([nodeId]), the identity of the DOM.  Scrolling is layout and
    is left out.  The handler of [submit] is asynchronous: [submitStart]
    is what it does up to its first [await], [submitFinish] what it does
    once the two [await]s are over, on the page as it is by then. *)

Module Client.

Record Node : Type := {
  nodeId : nat;
  className : jsstring;
  markup : jsstring }.

(** The chat element, the input field, the number of nodes created so far,
    and the trace of the page: the messages posted to [/api/chat] and the
    errors written to the console (most recent first). *)
Record Page : Type := {
  children : list Node;
  inputValue : jsstring;
  created : nat;
  posted : list jsstring;
  consoleErrors : list exn }.

(** What [res.json()] gives: [null], or a value whose [reply] property
    reads as [reply] ([undefined] when it has none; a reply is taken to be
    a string, [null] or [undefined]). *)
Inductive Json : Type :=
| JsonNull
| JsonValue (reply : jsval).

(** [data.reply]: a property read, which throws on [null]. *)
Definition readReply (data : Json) : result jsval :=
  match data with
  | JsonNull => Throw TypeError
  | JsonValue v => Return v
  end.

(** [addMessage(text, who)] *)
Definition addMessage (text who : jsstring) (pg : Page) : Page :=
  {| children :=
       children pg
       ++ [{| nodeId := created pg; className := lit "msg " ++ who;
              markup := text |}];
     inputValue := inputValue pg;
     created := S (created pg);
     posted := posted pg;
     consoleErrors := consoleErrors pg |}.

(** [inputEl.value = v] *)
Definition setInput (v : jsstring) (pg : Page) : Page :=
  {| children := children pg; inputValue := v; created := created pg;
     posted := posted pg; consoleErrors := consoleErrors pg |}.

(** The call of [fetch] on [/api/chat] with the body [{ message: text }]. *)
Definition post (text : jsstring) (pg : Page) : Page :=
  {| children := children pg; inputValue := inputValue pg;
     created := created pg; posted := text :: posted pg;
     consoleErrors := consoleErrors pg |}.

Definition consoleError (err : exn) (pg : Page) : Page :=
  {| children := children pg; inputValue := inputValue pg;
     created := created pg; posted := posted pg;
     consoleErrors := err :: consoleErrors pg |}.

Definition isNode (n m : Node) : bool := Nat.eqb (nodeId m) (nodeId n).

Definition notFoundError : exn := Error (lit "NotFoundError").

(** [chatEl.removeChild(node)]: a [TypeError] for [null], a
    [NotFoundError] for a node that is not a child of the chat element. *)
Definition removeChild (node : option Node) (pg : Page) : result Page :=
  match node with
  | None => Throw TypeError
  | Some n =>
      if existsb (isNode n) (children pg) then
        Return {| children :=
                    List.filter (fun m => negb (isNode n m)) (children pg);
                  inputValue := inputValue pg; created := created pg;
                  posted := posted pg; consoleErrors := consoleErrors pg |}
      else Throw notFoundError
  end.

Definition typingText : jsstring := lit "Typing...".
Definition noReplyText : jsstring := lit "No reply".
Definition errorText : jsstring := lit "Error aa gaya, please phir se try karo.".

Definition welcomeText : jsstring :=
  lit "Hi " ++ [55357; 56842]
  ++ lit " main Babli Bua hoon. Mehendi, sangeet, shaadi, venue, dress code, Hotel Booking, address "
  ++ [8211] ++ lit " kuch bhi puchho!".

(** The handler of [submit] up to its first [await]: nothing for an input
    that is blank; otherwise the message and the typing indicator are
    shown, the input is cleared and the request is sent.  The result holds
    the text and [typingNode]. *)
Definition submitStart (pg : Page) : Page * option (jsstring * option Node) :=
  let text := trim (inputValue pg) in
  if isEmpty text then (pg, None)
  else
    let pg1 := addMessage text (lit "me") pg in
    let pg2 := setInput [] pg1 in
    let pg3 := addMessage typingText (lit "bot") pg2 in
    let typingNode := last (children pg3) in
    (post text pg3, Some (text, typingNode)).

(** The [try] block after its two [await]s.  [outcome] is what they come
    to: the parsed body, or what [fetch] or [res.json()] threw.  The
    typing node is removed first, [data.reply] is read after that. *)
Definition submitTry (typingNode : option Node) (outcome : result Json)
           (pg : Page) : result unit * Page :=
  match outcome with
  | Throw err => (Throw err, pg)
  | Return data =>
      match removeChild typingNode pg with
      | Throw err => (Throw err, pg)
      | Return pg1 =>
          match readReply data with
          | Throw err => (Throw err, pg1)
          | Return replyValue =>
              (Return tt,
               addMessage (templ (jsOr replyValue (JString noReplyText)))
                 (lit "bot") pg1)
          end
      end
  end.

(** The [catch] block. *)
Definition submitCatch (typingNode : option Node) (err : exn) (pg : Page)
  : result unit * Page :=
  let pg1 := consoleError err pg in
  match removeChild typingNode pg1 with
  | Return pg2 => (Return tt, addMessage errorText (lit "bot") pg2)
  | Throw err' => (Throw err', pg1)
  end.

(** The handler after its [await]s. *)
Definition submitFinish (typingNode : option Node) (outcome : result Json)
           (pg : Page) : result unit * Page :=
  match submitTry typingNode outcome pg with
  | (Return _, pg1) => (Return tt, pg1)
  | (Throw err, pg1) => submitCatch typingNode err pg1
  end.

(** A submit with nothing else happening on the page in the meantime;
    [server] gives the outcome of the request for the posted message. *)
Definition submit (server : jsstring -> result Json) (pg : Page)
  : result unit * Page :=
  match submitStart pg with
  | (pg1, Some (text, typingNode)) => submitFinish typingNode (server text) pg1
  | (pg1, None) => (Return tt, pg1)
  end.

(** The page when the script has run: the welcome message alone. *)
Definition initialPage : Page :=
  addMessage welcomeText (lit "bot")
    {| children := []; inputValue := []; created := 0; posted := [];
       consoleErrors := [] |}.

(** Nodes are told apart by their identities, all handed out already. *)
Definition wellFormed (pg : Page) : Prop :=
  NoDup (List.map nodeId (children pg))
  /\ Forall (fun n => (nodeId n < created pg)%nat) (children pg).

(** The node [addMessage] appends to a page that has created [k] nodes. *)
Definition message (k : nat) (who text : jsstring) : Node :=
  {| nodeId := k; className := lit "msg " ++ who; markup := text |}.

(** The bot message that ends a submit, if one is appended: the reply (or
    [No reply] for a reply that is missing or empty) for a body that is
    not [null], the error sentence after a failure of the request, and
    none for the body [null]. *)
Definition botNodes (k : nat) (outcome : result Json) : list Node :=
  match outcome with
  | Return (JsonValue v) => [message k (lit "bot") (fallback v noReplyText)]
  | Return JsonNull => []
  | Throw _ => [message k (lit "bot") errorText]
  end.

(** What a submit writes to the console. *)
Definition logged (outcome : result Json) : list exn :=
  match outcome with
  | Return (JsonValue _) => []
  | Return JsonNull => [TypeError]
  | Throw err => [err]
  end.

(** How the handler ends: for the body [null] the [catch] block finds the
    typing node gone already and its [removeChild] throws. *)
Definition ending (outcome : result Json) : result unit :=
  match outcome with
  | Return JsonNull => Throw notFoundError
  | _ => Return tt
  end.

End Client.

(** The URLs a rebuild asks for, in the order it asks: the two required
    sheets, then each optional sheet that is configured. *)
Definition requestedUrls (env : Env) : list jsstring :=
  [templ (META_CSV_URL env); templ (EVENTS_CSV_URL env)]
  ++ (if truthy (HOTELS_CSV_URL env) then [templ (HOTELS_CSV_URL env)] else [])
  ++ (if truthy (GUESTS_CSV_URL env) then [templ (GUESTS_CSV_URL env)] else []).

(** The snapshot [ED] with another guest list. *)
Definition withGuests (gs : list Guest.t) (ED : EventData) : EventData :=
  {| coupleNames := coupleNames ED; weddingName := weddingName ED;
     city := city ED; events := events ED; hotels := hotels ED;
     guests := gs; stay := stay ED;
     emergencyContact := emergencyContact ED |}.

Definition succeeded {A} (r : result A) : Prop :=
  exists a, r = Return a.

(** The sheet at [url] loads: the fetch returns a response with an ok
    status whose text parses. *)
Definition sheetLoads (parse : jsstring -> result (list Row)) (w : World)
           (url : jsstring) : bool :=
  match fetch w url with
  | Return res =>
      ok res && match parse (text res) with
                | Return _ => true
                | Throw _ => false
                end
  | Throw _ => false
  end.

(** The URLs of [urls] up to the first one that does not load, this one
    included. *)
Fixpoint untilFailure (loads : jsstring -> bool) (urls : list jsstring)
  : list jsstring :=
  match urls with
  | [] => []
  | u :: rest => if loads u then u :: untilFailure loads rest else [u]
  end.

(** [m] fetches the URLs of [all] in order, up to the first one that does
    not load and no further, and returns exactly when all of them load. *)
Definition fetchesUntilFailure {A} (loads : jsstring -> bool) (m : proc A)
           (all : list jsstring) : Prop :=
  forall st,
    fetched (snd (m st)) = rev (untilFailure loads all) ++ fetched st
    /\ (succeeded (fst (m st)) <-> forallb loads all = true).

(** The keys of [meta] that the loader reads. *)
Definition metaKeys : list string :=
  ["coupleNames"; "weddingName"; "city"; "hotelName"; "hotelAddress";
   "hotelMapLink"; "hotelCheckIn"; "hotelCheckOut"; "hotelContactPerson";
   "hotelContactPhone"; "emergencyName"; "emergencyPhone"]%string.

(** A hotel the join passes over: it has a name, and the name is not the
    guest's [hotelName] up to case. *)
Definition passedOver (lower : jsstring -> jsstring) (g : Guest.t)
           (h : Hotel.t) : Prop :=
  hasName h /\ hotelMatchesb lower g h = false.

(** ** Scenarios *)

Definition guestWithPhone (name phone : string) : Guest.t :=
  Guest.Build (JString (lit phone)) (JString (lit name))
    (JString (lit "Taj")) (JString (lit "12")) JUndefined.

Definition spacedMessage : jsstring := lit "my number is +91 98765 43210".
Definition unspacedMessage : jsstring := lit "my number is +919876543210".
Definition callMessage : jsstring := lit "call 9876543210 please".

(** A deployment with four sheets.  The hotels sheet has its name column
    titled [Name], not [name]; [sheetParse] gives, for the texts of this
    deployment, the records [csv-parse] yields for them. *)
Definition metaCsv : jsstring :=
  lit "field,value" ++ [newline] ++ lit "weddingName,Asha weds Ravi".

Definition eventsCsv : jsstring :=
  lit "key,name,date" ++ [newline] ++ lit "mehendi,Mehendi,10 February 2025".

Definition hotelsCsv : jsstring :=
  lit "Name,address" ++ [newline] ++ lit "Taj,MI Road".

Definition guestsCsv : jsstring :=
  lit "phone,name,hotelName" ++ [newline] ++ lit "9876543210,Asha,Taj".

Definition sheetParse (text : jsstring) : result (list Row) :=
  if streq text metaCsv then
    Return [list_to_map [(lit "field", lit "weddingName");
                         (lit "value", lit "Asha weds Ravi")]]
  else if streq text eventsCsv then
    Return [list_to_map [(lit "key", lit "mehendi");
                         (lit "name", lit "Mehendi");
                         (lit "date", lit "10 February 2025")]]
  else if streq text hotelsCsv then
    Return [list_to_map [(lit "Name", lit "Taj");
                         (lit "address", lit "MI Road")]]
  else if streq text guestsCsv then
    Return [list_to_map [(lit "phone", lit "9876543210");
                         (lit "name", lit "Asha");
                         (lit "hotelName", lit "Taj")]]
  else Return [].

Definition sheetFetch (url : jsstring) : result HttpResponse :=
  if streq url (lit "https://sheets.example/meta.csv") then
    Return {| ok := true; status := 200; text := metaCsv |}
  else if streq url (lit "https://sheets.example/events.csv") then
    Return {| ok := true; status := 200; text := eventsCsv |}
  else if streq url (lit "https://sheets.example/hotels.csv") then
    Return {| ok := true; status := 200; text := hotelsCsv |}
  else if streq url (lit "https://sheets.example/guests.csv") then
    Return {| ok := true; status := 200; text := guestsCsv |}
  else Return {| ok := false; status := 404; text := [] |}.

Definition sheetWorld : World :=
  {| dateNow := 1700000000000%Z;
     processEnv :=
       {| META_CSV_URL := JString (lit "https://sheets.example/meta.csv");
          EVENTS_CSV_URL := JString (lit "https://sheets.example/events.csv");
          HOTELS_CSV_URL := JString (lit "https://sheets.example/hotels.csv");
          GUESTS_CSV_URL := JString (lit "https://sheets.example/guests.csv") |};
     fetch := sheetFetch;
     chatCompletion := fun _ => Return JUndefined |}.

(** The same deployment at another time, and without its meta sheet
    configured. *)
Definition sheetWorldAt (now : Z) : World :=
  {| dateNow := now; processEnv := processEnv sheetWorld;
     fetch := fetch sheetWorld; chatCompletion := chatCompletion sheetWorld |}.

Definition unconfiguredWorld : World :=
  {| dateNow := dateNow sheetWorld;
     processEnv :=
       {| META_CSV_URL := JUndefined;
          EVENTS_CSV_URL := EVENTS_CSV_URL (processEnv sheetWorld);
          HOTELS_CSV_URL := HOTELS_CSV_URL (processEnv sheetWorld);
          GUESTS_CSV_URL := GUESTS_CSV_URL (processEnv sheetWorld) |};
     fetch := fetch sheetWorld; chatCompletion := chatCompletion sheetWorld |}.

(** The server after a first load of the sheets. *)
Definition loadedServer : Server :=
  snd (getEventData sheetParse sheetWorld initialServer).

Definition emptySnapshot : EventData :=
  {| coupleNames := JString []; weddingName := JString []; city := JString [];
     events := []; hotels := []; guests := []; stay := None;
     emergencyContact := None |}.

Definition snapshotOf (guests : list Guest.t) (hotels : list Hotel.t)
  : EventData :=
  {| coupleNames := JString []; weddingName := JString []; city := JString [];
     events := []; hotels := hotels; guests := guests; stay := None;
     emergencyContact := None |}.

Definition loadedSnapshot : EventData :=
  default emptySnapshot (cachedEventData loadedServer).

(** A later moment at which the sheets cannot be reached any more and the
    configuration is gone. *)
Definition offlineWorldAt (now : Z) : World :=
  {| dateNow := now; processEnv := processEnv unconfiguredWorld;
     fetch := fun _ => Throw (Error (lit "network unreachable"));
     chatCompletion := chatCompletion sheetWorld |}.

(** A message of 510 code units whose only phone number starts at
    position 500, and the 500 code units before the number. *)
Definition longMessage : jsstring := repeat 97 500 ++ lit "9876543210".
Definition longMessagePrefix : jsstring := repeat 97 500.

(** The deployment with every sheet answering 404, and the deployment
    without a guests sheet. *)
Definition missingSheetsWorld : World :=
  {| dateNow := dateNow sheetWorld; processEnv := processEnv sheetWorld;
     fetch := fun _ => Return {| ok := false; status := 404; text := [] |};
     chatCompletion := chatCompletion sheetWorld |}.

Definition noGuestsWorld : World :=
  {| dateNow := dateNow sheetWorld;
     processEnv :=
       {| META_CSV_URL := META_CSV_URL (processEnv sheetWorld);
          EVENTS_CSV_URL := EVENTS_CSV_URL (processEnv sheetWorld);
          HOTELS_CSV_URL := HOTELS_CSV_URL (processEnv sheetWorld);
          GUESTS_CSV_URL := JString [] |};
     fetch := fetch sheetWorld; chatCompletion := chatCompletion sheetWorld |}.

(** A page on which two submits overlap: the first message is sent, then
    the second, and no answer has arrived yet. *)
Definition firstSent : Client.Page :=
  fst (Client.submitStart
         (Client.setInput (lit "  call 9876543210 ") Client.initialPage)).

Definition bothSent : Client.Page :=
  fst (Client.submitStart (Client.setInput (lit "dress code?") firstSent)).

Definition firstTyping : Client.Node :=
  Client.message 2 (lit "bot") Client.typingText.

(** The deployment of the call scenario: the guest's phone is stored as
    [+91-9876543210]; the hotels sheet is [hotelsText], either [hotelsCsv]
    (name column titled [Name]) or [namedHotelsCsv] (titled [name]). *)
Definition callGuestsCsv : jsstring :=
  lit "phone,name,hotelName" ++ [newline] ++ lit "+91-9876543210,Asha,Taj".

Definition namedHotelsCsv : jsstring :=
  lit "name,address" ++ [newline] ++ lit "Taj,MI Road".

Definition callParse (text : jsstring) : result (list Row) :=
  if streq text callGuestsCsv then
    Return [list_to_map [(lit "phone", lit "+91-9876543210");
                         (lit "name", lit "Asha");
                         (lit "hotelName", lit "Taj")]]
  else if streq text namedHotelsCsv then
    Return [list_to_map [(lit "name", lit "Taj");
                         (lit "address", lit "MI Road")]]
  else sheetParse text.

Definition callWorld (hotelsText : jsstring) : World :=
  {| dateNow := dateNow sheetWorld;
     processEnv := processEnv sheetWorld;
     fetch := fun url =>
       if streq url (lit "https://sheets.example/hotels.csv") then
         Return {| ok := true; status := 200; text := hotelsText |}
       else if streq url (lit "https://sheets.example/guests.csv") then
         Return {| ok := true; status := 200; text := callGuestsCsv |}
       else sheetFetch url;
     chatCompletion := chatCompletion sheetWorld |}.

Definition callGuest : Guest.t :=
  Guest.Build (JString (lit "+91-9876543210")) (JString (lit "Asha"))
    (JString (lit "Taj")) JUndefined JUndefined.

Definition tajHotel : Hotel.t :=
  Hotel.Build (JString (lit "Taj")) JUndefined (JString (lit "MI Road"))
    JUndefined JUndefined JUndefined JUndefined JUndefined JUndefined.

(** The booking reply for [callGuest] at [tajHotel], written out. *)
Definition callReply : jsstring :=
  lit "<strong>Booking Found for Asha:</strong>" ++ [newline]
  ++ lit "<strong>Hotel:</strong> Taj" ++ [newline]
  ++ lit "<strong>Room:</strong> N/A" ++ [newline]
  ++ lit "<strong>Address:</strong> MI Road" ++ [newline]
  ++ lit "<strong>Map:</strong> Map link not available" ++ [newline]
  ++ lit "<strong>Contact:</strong> N/A (N/A)" ++ [newline]
  ++ lit "<strong>Notes:</strong> Enjoy your stay! " ++ [55357; 56842].

(** The deployment with the events sheet answering 404. *)
Definition eventsDownWorld : World :=
  {| dateNow := dateNow sheetWorld; processEnv := processEnv sheetWorld;
     fetch := fun url =>
       if streq url (lit "https://sheets.example/events.csv") then
         Return {| ok := false; status := 404; text := [] |}
       else sheetFetch url;
     chatCompletion := chatCompletion sheetWorld |}.

(** * Properties *)

(** Both sides of an equation between concatenations, flattened. *)
Ltac flatten_app :=
  repeat (progress (cbn [app]; rewrite <- ?app_assoc)).

(** ** Strings *)

Lemma streq_true_iff (s t : jsstring) : streq s t = true <-> s = t.
Proof.
  revert t; induction s as [|c s IH]; intros [|d t]; simpl; try easy.
  rewrite andb_true_iff, N.eqb_eq, IH.
  split; [intros [-> ->]; reflexivity | intros [= -> ->]; auto].
Qed.

(** [endsWith] decides the suffix relation. *)
Lemma endsWith_suffix (s q : jsstring) :
  endsWith s q = true <-> q `suffix_of` s.
Proof.
  unfold endsWith. rewrite andb_true_iff, Nat.leb_le, streq_true_iff. split.
  - intros [_ Hq]. exists (take (length s - length q) s).
    rewrite <- Hq at 2. symmetry; apply take_drop.
  - intros [k ->]. rewrite length_app. split; [lia|].
    replace (length k + length q - length q)%nat with (length k) by lia.
    apply drop_app_length.
Qed.

Lemma filter_isDigit_fixed (s : jsstring) :
  forallb isDigit s = true -> List.filter isDigit s = s.
Proof.
  induction s as [|c s IH]; simpl; [reflexivity|].
  rewrite andb_true_iff. intros [Hc Hs]. rewrite Hc, IH; auto.
Qed.

Lemma filter_isDigit_digits (s : jsstring) :
  forallb isDigit (List.filter isDigit s) = true.
Proof.
  induction s as [|c s IH]; simpl; [reflexivity|].
  destruct (isDigit c) eqn:Hc; simpl; [rewrite Hc|]; exact IH.
Qed.

(** ** Normalization *)

(** The guard [if (!raw)] keeps the method call away from [undefined] and
    [null]: [normalizePhone] never throws. *)
Lemma normalizePhone_normalized (v : jsval) :
  normalizePhone v = Return (normalized v).
Proof. destruct v as [| |[|c s]]; reflexivity. Qed.

Lemma normalized_digits (v : jsval) : forallb isDigit (normalized v) = true.
Proof. destruct v; simpl; auto using filter_isDigit_digits. Qed.

(** ** [find] *)

Lemma findM_pure {A} (p : A -> result bool) (q : A -> bool) (l : list A) :
  (forall x, In x l -> p x = Return (q x)) ->
  findM p l = Return (List.find q l).
Proof.
  induction l as [|x l IH]; intros Hp; simpl; [reflexivity|].
  rewrite (Hp x) by (left; reflexivity). simpl.
  destruct (q x); [reflexivity|].
  apply IH. intros y Hy. apply Hp. right; exact Hy.
Qed.

Lemma find_all_false {A} (q : A -> bool) (l : list A) :
  Forall (fun x => q x = false) l -> List.find q l = None.
Proof.
  induction 1 as [|x l Hx _ IH]; simpl; [reflexivity|].
  rewrite Hx. exact IH.
Qed.

(** The first match is the only one there is, when there is only one. *)
Lemma find_unique {A} (q : A -> bool) (l : list A) (i : nat) (x : A) :
  l !! i = Some x ->
  q x = true ->
  (forall j y, l !! j = Some y -> q y = true -> j = i) ->
  List.find q l = Some x.
Proof.
  revert i; induction l as [|a l IH]; intros i Hi Hx Huniq; [discriminate|].
  simpl. destruct (q a) eqn:Ha.
  - specialize (Huniq 0%nat a eq_refl Ha). subst i.
    simpl in Hi. congruence.
  - destruct i as [|i]; simpl in Hi; [congruence|].
    apply (IH i); auto.
    intros j y Hj Hy. specialize (Huniq (S j) y Hj Hy). lia.
Qed.

(** ** The guest lookup *)

Lemma guestMatches_pure (p : jsstring) (g : Guest.t) :
  guestMatches p g = Return (guestMatchesb p g).
Proof.
  unfold guestMatches. rewrite normalizePhone_normalized. reflexivity.
Qed.

Lemma guestMatchesb_spec (p : jsstring) (g : Guest.t) :
  guestMatchesb p g = true <-> phoneEndsWith p g.
Proof.
  unfold guestMatchesb, phoneEndsWith.
  rewrite andb_true_iff, endsWith_suffix, normalizePhone_normalized.
  split.
  - intros [Hne Hsuf]. exists (normalized (Guest.phone g)).
    repeat split; auto. intros E. rewrite E in Hne. discriminate.
  - intros (n & [= <-] & Hne & Hsuf). split; auto.
    destruct (normalized (Guest.phone g)); [contradiction | reflexivity].
Qed.

Lemma findGuest_pure (p : jsstring) (guests : list Guest.t) :
  findM (guestMatches p) guests = Return (List.find (guestMatchesb p) guests).
Proof. apply findM_pure. intros g _. apply guestMatches_pure. Qed.

(** The lookup in closed form: it never throws. *)
Lemma lookupGuest_pure (msg : jsstring) (guests : list Guest.t) :
  lookupGuest msg guests =
  Return (match phoneRegexMatch msg with
          | Some rawPhone =>
              (Some rawPhone,
               List.find (guestMatchesb (normalized (JString rawPhone))) guests)
          | None => (None, None)
          end).
Proof.
  unfold lookupGuest. destruct (phoneRegexMatch msg) as [raw|]; [|reflexivity].
  destruct guests as [|g guests]; [reflexivity|].
  change (0 <? length (g :: guests))%nat with true. cbv iota.
  rewrite normalizePhone_normalized. cbn [rbind].
  rewrite findGuest_pure. reflexivity.
Qed.

Lemma resolveBooking_pure (msg : jsstring) (guests : list Guest.t) :
  resolveBooking msg guests =
  Return (match phoneRegexMatch msg with
          | Some rawPhone =>
              match List.find (guestMatchesb (normalized (JString rawPhone)))
                      guests with
              | Some g => Found g
              | None => NotFound
              end
          | None => NoPhoneMentioned
          end).
Proof.
  unfold resolveBooking. rewrite lookupGuest_pure. cbn [rbind].
  destruct (phoneRegexMatch msg) as [raw|]; [|reflexivity].
  simpl. destruct (List.find _ guests); reflexivity.
Qed.

(** ** The phone pattern *)

Lemma digitsUpTo_digits (n : nat) (s : jsstring) :
  forallb isDigit (digitsUpTo n s) = true.
Proof.
  revert s; induction n as [|n IH]; intros [|c s]; simpl; try reflexivity.
  destruct (isDigit c) eqn:Hc; simpl; [rewrite Hc; apply IH | reflexivity].
Qed.

Lemma digitsUpTo_length (n : nat) (s : jsstring) :
  (length (digitsUpTo n s) <= n)%nat.
Proof.
  revert s; induction n as [|n IH]; intros [|c s]; simpl; try lia.
  destruct (isDigit c); simpl; [specialize (IH s)|]; lia.
Qed.

Lemma digitsUpTo_prefix (n : nat) (s : jsstring) :
  exists r, s = digitsUpTo n s ++ r.
Proof.
  revert s; induction n as [|n IH]; intros [|c s]; simpl;
    try (eexists; reflexivity).
  destruct (isDigit c); [|eexists; reflexivity].
  destruct (IH s) as [r Hr]. exists r. simpl. congruence.
Qed.

(** Greedy: no run of digits at the head of [s] is longer than what
    [digitsUpTo] takes, up to the bound. *)
Lemma digitsUpTo_longest (n : nat) (w r : jsstring) :
  forallb isDigit w = true ->
  (Nat.min n (length w) <= length (digitsUpTo n (w ++ r)))%nat.
Proof.
  revert w; induction n as [|n IH]; intros [|c w]; simpl; try lia.
  rewrite andb_true_iff. intros [Hc Hw]. rewrite Hc. simpl.
  specialize (IH w Hw). lia.
Qed.

Lemma digitsUpTo_all (n : nat) (w : jsstring) :
  forallb isDigit w = true -> (length w <= n)%nat -> digitsUpTo n w = w.
Proof.
  revert w; induction n as [|n IH]; intros [|c w]; simpl; try reflexivity;
    try lia.
  rewrite andb_true_iff. intros [Hc Hw] Hlen. rewrite Hc, IH; auto. lia.
Qed.

Lemma matchDigits_Some (s d : jsstring) :
  matchDigits s = Some d ->
  forallb isDigit d = true /\ (10 <= length d <= 13)%nat
  /\ exists r, s = d ++ r.
Proof.
  unfold matchDigits.
  pose proof (digitsUpTo_length 13 s) as Hle.
  pose proof (digitsUpTo_digits 13 s) as Hd.
  pose proof (digitsUpTo_prefix 13 s) as Hr.
  remember (digitsUpTo 13 s) as run eqn:Erun. clear Erun.
  destruct (10 <=? length run)%nat eqn:Hlen; [|discriminate].
  intros [= <-]. apply Nat.leb_le in Hlen. auto.
Qed.

Lemma matchDigits_None (s w r : jsstring) :
  matchDigits s = None -> s = w ++ r -> forallb isDigit w = true ->
  (length w < 10)%nat.
Proof.
  unfold matchDigits.
  intros Hnone -> Hw.
  pose proof (digitsUpTo_longest 13 w r Hw) as Hlong.
  remember (digitsUpTo 13 (w ++ r)) as run eqn:Erun. clear Erun.
  destruct (10 <=? length run)%nat eqn:Hlen; [discriminate|].
  apply Nat.leb_gt in Hlen. lia.
Qed.

Lemma phoneLike_digits (d : jsstring) :
  forallb isDigit d = true -> (10 <= length d <= 13)%nat ->
  phoneLike d = true.
Proof.
  intros Hd Hlen. unfold phoneLike.
  destruct d as [|c d]; [simpl in Hlen; lia|].
  destruct (c =? plusSign) eqn:Hc.
  - apply N.eqb_eq in Hc. subst c. simpl in Hd. discriminate Hd.
  - cbv zeta. rewrite Hd. cbn [andb]. apply andb_true_iff.
    split; apply Nat.leb_le; lia.
Qed.

Lemma phoneLike_signed (d : jsstring) :
  forallb isDigit d = true -> (10 <= length d <= 13)%nat ->
  phoneLike (plusSign :: d) = true.
Proof.
  intros Hd Hlen. unfold phoneLike. rewrite N.eqb_refl. cbv zeta.
  rewrite Hd. cbn [andb]. apply andb_true_iff. split; apply Nat.leb_le; lia.
Qed.

(** A whole match holds a run of 10 to 13 digits: itself, or itself without
    its sign. *)
Lemma phoneLike_inv (w : jsstring) :
  phoneLike w = true ->
  exists sign d, w = sign ++ d /\ (sign = [] \/ sign = [plusSign])
                 /\ forallb isDigit d = true /\ (10 <= length d <= 13)%nat.
Proof.
  unfold phoneLike. destruct w as [|c w].
  - simpl. discriminate.
  - destruct (c =? plusSign) eqn:Hc;
      rewrite !andb_true_iff, !Nat.leb_le; intros [[Hd H10] H13].
    + apply N.eqb_eq in Hc. subst c. exists [plusSign], w. auto.
    + exists [], (c :: w). auto.
Qed.

Lemma matchAt_Some (s m : jsstring) :
  matchAt s = Some m -> phoneLike m = true /\ exists r, s = m ++ r.
Proof.
  unfold matchAt. destruct s as [|c s].
  - intros H. apply matchDigits_Some in H as (Hd & Hlen & r & Hr).
    split; [apply phoneLike_digits; auto | eauto].
  - destruct (c =? plusSign) eqn:Hc.
    + apply N.eqb_eq in Hc. subst c.
      destruct (matchDigits s) as [d|] eqn:Hs.
      * intros [= <-]. apply matchDigits_Some in Hs as (Hd & Hlen & r & Hr).
        split; [apply phoneLike_signed; auto|].
        exists r. simpl. congruence.
      * intros H. apply matchDigits_Some in H as (Hd & Hlen & r & Hr).
        split; [apply phoneLike_digits; auto | eauto].
    + intros H. apply matchDigits_Some in H as (Hd & Hlen & r & Hr).
      split; [apply phoneLike_digits; auto | eauto].
Qed.

Lemma matchAt_None (s w r : jsstring) :
  matchAt s = None -> s = w ++ r -> phoneLike w = false.
Proof.
  intros Hnone Hs. destruct (phoneLike w) eqn:Hw; [exfalso | reflexivity].
  apply phoneLike_inv in Hw as (sign & d & -> & Hsign & Hd & Hlen).
  unfold matchAt in Hnone. destruct Hsign as [-> | ->]; simpl in Hs.
  - destruct d as [|c d]; [simpl in Hlen; lia|].
    subst s. simpl in Hnone.
    assert (Hc : (c =? plusSign) = false).
    { destruct (c =? plusSign) eqn:E; [|reflexivity].
      apply N.eqb_eq in E. subst c. simpl in Hd. discriminate Hd. }
    rewrite Hc in Hnone.
    pose proof (matchDigits_None _ (c :: d) r Hnone eq_refl Hd). lia.
  - subst s. rewrite N.eqb_refl in Hnone.
    destruct (matchDigits (d ++ r)) eqn:E; [discriminate|].
    pose proof (matchDigits_None _ d r E eq_refl Hd). lia.
Qed.

(** Greedy: the match at a position is the longest whole match there. *)
Lemma matchAt_longest (s m w r : jsstring) :
  matchAt s = Some m -> s = w ++ r -> phoneLike w = true ->
  (length w <= length m)%nat.
Proof.
  intros Hm Hs Hw.
  apply phoneLike_inv in Hw as (sign & d & -> & Hsign & Hd & Hlen).
  assert (Hrun : forall t u, matchDigits (d ++ t) = Some u ->
                             (length d <= length u)%nat).
  { intros t u. unfold matchDigits.
    pose proof (digitsUpTo_longest 13 d t Hd) as Hlong.
    remember (digitsUpTo 13 (d ++ t)) as run eqn:Erun. clear Erun.
    destruct (10 <=? length run)%nat; [|discriminate]. intros [= <-]. lia. }
  unfold matchAt in Hm. destruct Hsign as [-> | ->]; simpl in Hs.
  - destruct d as [|c d]; [simpl in Hlen; lia|].
    subst s. simpl in Hm.
    assert (Hc : (c =? plusSign) = false).
    { destruct (c =? plusSign) eqn:E; [|reflexivity].
      apply N.eqb_eq in E. subst c. simpl in Hd. discriminate Hd. }
    rewrite Hc in Hm. apply (Hrun r m Hm).
  - subst s. rewrite N.eqb_refl in Hm.
    destruct (matchDigits (d ++ r)) as [u|] eqn:E.
    + injection Hm as <-. specialize (Hrun r u E). simpl. lia.
    + pose proof (matchDigits_None _ d r E eq_refl Hd). lia.
Qed.

Lemma matchAt_phoneLike (m : jsstring) :
  phoneLike m = true -> matchAt m = Some m.
Proof.
  intros Hm. apply phoneLike_inv in Hm as (sign & d & -> & Hsign & Hd & Hlen).
  assert (Hrun : matchDigits d = Some d).
  { unfold matchDigits. rewrite (digitsUpTo_all 13 d) by (auto; lia).
    destruct (10 <=? length d)%nat eqn:E; [reflexivity|].
    apply Nat.leb_gt in E. lia. }
  unfold matchAt. destruct Hsign as [-> | ->]; cbn [app].
  - destruct d as [|c d]; [simpl in Hlen; lia|].
    destruct (c =? plusSign) eqn:E; [|exact Hrun].
    apply N.eqb_eq in E. subst c. simpl in Hd. discriminate Hd.
  - rewrite N.eqb_refl, Hrun. reflexivity.
Qed.

Lemma phoneRegexMatch_eq (s : jsstring) :
  phoneRegexMatch s =
  match matchAt s with
  | Some m => Some m
  | None => match s with [] => None | _ :: s' => phoneRegexMatch s' end
  end.
Proof. destruct s; reflexivity. Qed.

(** No match: no substring of the message is a whole match. *)
Lemma phoneRegexMatch_None (s : jsstring) :
  phoneRegexMatch s = None ->
  forall a w b, s = a ++ w ++ b -> phoneLike w = false.
Proof.
  induction s as [|c s IH]; rewrite phoneRegexMatch_eq;
    destruct (matchAt _) eqn:Hat; try discriminate; intros Hnone a w b Hs.
  - apply (matchAt_None [] w b Hat).
    destruct a; [exact Hs | discriminate].
  - destruct a as [|c' a].
    + apply (matchAt_None _ w b Hat). exact Hs.
    + injection Hs as _ Hs. exact (IH Hnone a w b Hs).
Qed.

(** A match [m]: it is a whole match, it sits at the leftmost position of
    the message where a whole match starts, and it is the longest one
    there. *)
Lemma phoneRegexMatch_Some (s m : jsstring) :
  phoneRegexMatch s = Some m ->
  exists a b,
    s = a ++ m ++ b
    /\ phoneLike m = true
    /\ (forall a1 a2 w r,
          a = a1 ++ a2 -> a2 <> [] -> a2 ++ m ++ b = w ++ r ->
          phoneLike w = false)
    /\ (forall w r,
          m ++ b = w ++ r -> phoneLike w = true ->
          (length w <= length m)%nat).
Proof.
  revert m; induction s as [|c s IH]; intros m; rewrite phoneRegexMatch_eq;
    destruct (matchAt _) as [m'|] eqn:Hat; try discriminate.
  - intros [= ->]. destruct (matchAt_Some _ _ Hat) as [Hm [b Hb]].
    exists [], b. repeat split; auto.
    + intros a1 a2 w r Ha Hne. destruct a1, a2; try discriminate.
      contradiction.
    + intros w r Hw. apply (matchAt_longest (c :: s) m w r Hat).
      rewrite Hb. exact Hw.
  - intros Hm. destruct (IH m Hm) as (a & b & Hs & Hlike & Hleft & Hlong).
    exists (c :: a), b. repeat split; auto.
    + simpl. congruence.
    + intros a1 a2 w r Ha Hne Hw. destruct a1 as [|c1 a1].
      * simpl in Ha. subst a2. apply (matchAt_None (c :: s) w r Hat).
        rewrite <- Hw. simpl. congruence.
      * injection Ha as _ Ha. exact (Hleft a1 a2 w r Ha Hne Hw).
Qed.

Lemma phoneRegexMatch_phoneLike (m : jsstring) :
  phoneLike m = true -> phoneRegexMatch m = Some m.
Proof.
  intros Hm. rewrite phoneRegexMatch_eq, (matchAt_phoneLike m Hm).
  reflexivity.
Qed.

(** A message without a run of 10 to 13 digits has no match. *)
Lemma no_digit_run_no_match (s : jsstring) :
  (forall a d b, s = a ++ d ++ b -> (10 <= length d <= 13)%nat ->
                 forallb isDigit d = false) ->
  phoneRegexMatch s = None.
Proof.
  intros Hrun. destruct (phoneRegexMatch s) as [m|] eqn:Hm; [|reflexivity].
  exfalso.
  destruct (phoneRegexMatch_Some s m Hm) as (a & b & Hs & Hlike & _).
  apply phoneLike_inv in Hlike as (sign & d & -> & _ & Hd & Hlen).
  specialize (Hrun (a ++ sign) d b).
  rewrite Hrun in Hd; [discriminate | | exact Hlen].
  rewrite Hs, <- !app_assoc. reflexivity.
Qed.

(** ** The handler *)

Section Handler.

Variable toLowerCase : jsstring -> jsstring.
Variable parse : jsstring -> result (list Row).

Lemma userMessageOf_total (message : jsval) :
  userMessageOf message = Return (take 500 (messageString message)).
Proof. destruct message as [| |[|c s]]; reflexivity. Qed.

(** The handler branches on the resolution and on nothing else. *)
Lemma answer_NoPhoneMentioned (w : World) (um : jsstring) (ED : EventData) :
  resolveBooking um (guests ED) = Return NoPhoneMentioned ->
  answer toLowerCase w um ED = askModel w (completionRequest ED um).
Proof.
  rewrite resolveBooking_pure. unfold answer. rewrite lookupGuest_pure.
  destruct (phoneRegexMatch um) as [raw|]; [|reflexivity].
  destruct (List.find _ (guests ED)); discriminate.
Qed.

Lemma answer_NotFound (w : World) (um : jsstring) (ED : EventData)
      (st : Server) :
  resolveBooking um (guests ED) = Return NotFound ->
  answer toLowerCase w um ED st = (Return (okResponse noBookingReply), st).
Proof.
  rewrite resolveBooking_pure. unfold answer. rewrite lookupGuest_pure.
  destruct (phoneRegexMatch um) as [raw|]; [|discriminate].
  destruct (List.find _ (guests ED)); [discriminate | reflexivity].
Qed.

Lemma answer_Found (w : World) (um : jsstring) (ED : EventData)
      (st : Server) (g : Guest.t) :
  resolveBooking um (guests ED) = Return (Found g) ->
  answer toLowerCase w um ED st =
  (match findHotel toLowerCase (hotels ED) g with
   | Return hotel => Return (okResponse (bookingReply g hotel))
   | Throw e => Throw e
   end, st).
Proof.
  rewrite resolveBooking_pure. unfold answer. rewrite lookupGuest_pure.
  destruct (phoneRegexMatch um) as [raw|]; [|discriminate].
  destruct (List.find _ (guests ED)) as [g'|]; [|discriminate].
  intros [= ->]. unfold pbind, plift, pret.
  destruct (findHotel toLowerCase (hotels ED) g); reflexivity.
Qed.

(** The handler in terms of its two stages. *)
Lemma chat_stages (w : World) (message : jsval) (st : Server) :
  chat toLowerCase parse w message st =
  match getEventData parse w st with
  | (Return ED, st1) =>
      match answer toLowerCase w (take 500 (messageString message)) ED st1 with
      | (Return r, st2) => (r, st2)
      | (Throw e, st2) => (errorResponse, withConsoleError e st2)
      end
  | (Throw e, st1) => (errorResponse, withConsoleError e st1)
  end.
Proof.
  unfold chat, chatBody. rewrite userMessageOf_total.
  unfold pbind, plift. destruct (getEventData parse w st) as [[ED|err] st1];
    reflexivity.
Qed.

(** A fresh cache is returned as it is; nothing else happens. *)
Lemma getEventData_fresh (w : World) (st : Server) (d : EventData) :
  cachedEventData st = Some d ->
  (dateNow w - lastLoadedMs st < CACHE_TTL_MS)%Z ->
  getEventData parse w st = (Return d, st).
Proof.
  intros Hc Hage. unfold getEventData, pbind, readCache. simpl.
  rewrite Hc. apply Z.ltb_lt in Hage. rewrite Hage. reflexivity.
Qed.

(** Without a fresh cache the snapshot is rebuilt, and stored if the
    rebuild succeeds. *)
Lemma getEventData_stale (w : World) (st : Server) :
  cacheIsFresh (dateNow w) (cachedEventData st, lastLoadedMs st) = false ->
  getEventData parse w st =
  match buildEventDataFromSheets parse w st with
  | (Return data, st1) =>
      (Return data,
       {| cachedEventData := Some data; lastLoadedMs := dateNow w;
          fetched := fetched st1; consoleErrors := consoleErrors st1;
          completions := completions st1 |})
  | (Throw e, st1) => (Throw e, st1)
  end.
Proof.
  intros Hstale. unfold getEventData, pbind, readCache.
  cbn [fst]. rewrite Hstale.
  destruct (cachedEventData st);
    destruct (buildEventDataFromSheets parse w st) as [[data|err] st1];
    reflexivity.
Qed.

(** The configuration check comes before every fetch. *)
Lemma build_unconfigured (w : World) (st : Server) :
  truthy (META_CSV_URL (processEnv w)) = false
  \/ truthy (EVENTS_CSV_URL (processEnv w)) = false ->
  buildEventDataFromSheets parse w st = (Throw (Error configErrorMessage), st).
Proof.
  intros H. unfold buildEventDataFromSheets.
  destruct H as [-> | ->]; rewrite ?orb_true_r; reflexivity.
Qed.

End Handler.

(** ** Trimming and the booking reply *)

Lemma trimEnd_after_visible (a b : jsstring) (c : N) :
  isWhiteSpace c = false ->
  trimEnd (a ++ c :: b) = a ++ c :: trimEnd b.
Proof.
  intros Hc. induction a as [|x a IH].
  - simpl. rewrite Hc. destruct (trimEnd b); reflexivity.
  - change ((x :: a) ++ c :: b) with (x :: (a ++ c :: b)).
    cbn [trimEnd]. rewrite IH. destruct a; reflexivity.
Qed.

Lemma trimStart_visible (c : N) (s : jsstring) :
  isWhiteSpace c = false -> trimStart (c :: s) = c :: s.
Proof. intros Hc. simpl. rewrite Hc. reflexivity. Qed.

(** A template that opens with a line break and a visible character and
    whose body ends with a visible character loses the line break, and is
    trimmed at its end after the body only. *)
Lemma trim_template (c d : N) (body tail : jsstring) :
  isWhiteSpace c = false -> isWhiteSpace d = false ->
  trim (newline :: c :: body ++ d :: tail) = c :: body ++ d :: trimEnd tail.
Proof.
  intros Hc Hd. unfold trim.
  change (trimStart (newline :: c :: body ++ d :: tail))
    with (trimStart (c :: body ++ d :: tail)).
  rewrite trimStart_visible by exact Hc.
  apply (trimEnd_after_visible (c :: body) tail d Hd).
Qed.

Lemma templ_jsOr (v : jsval) (d : jsstring) :
  d <> [] -> templ (jsOr v (JString d)) = fallback v d.
Proof. destruct v as [| |[|c s]]; reflexivity. Qed.

Lemma templ_jsOr2 (u v : jsval) (d : jsstring) :
  d <> [] -> templ (jsOr (jsOr u v) (JString d)) = fallback u (fallback v d).
Proof.
  destruct u as [| |[|c s]]; try reflexivity; intros Hd;
    apply (templ_jsOr v d Hd).
Qed.

(** The reply of the booking branch, field by field. *)
Lemma bookingReply_shown (g : Guest.t) (hotel : option Hotel.t) :
  bookingReply g hotel = bookingShown g hotel.
Proof.
  unfold bookingReply, bookingTemplate, bookingShown, naString.
  rewrite !templ_jsOr2 by (intros E; vm_compute in E; discriminate E).
  rewrite !templ_jsOr by (intros E; vm_compute in E; discriminate E).
  set (name := templ (Guest.name g)).
  set (f1 := fallback (hotelField Hotel.name hotel) _).
  set (f2 := fallback (Guest.roomNo g) _).
  set (f3 := fallback (hotelField Hotel.address hotel) _).
  set (f4 := fallback (hotelField Hotel.mapLink hotel) _).
  set (f5 := fallback (hotelField Hotel.contactPerson hotel) _).
  set (f6 := fallback (hotelField Hotel.contactPhone hotel) _).
  set (f7 := fallback (Guest.notes g) _).
  set (body :=
         lit "strong>Booking Found for " ++ name ++ lit ":</strong>"
         ++ [newline] ++ lit "<strong>Hotel:</strong> " ++ f1 ++ [newline]
         ++ lit "<strong>Room:</strong> " ++ f2 ++ [newline]
         ++ lit "<strong>Address:</strong> " ++ f3 ++ [newline]
         ++ lit "<strong>Map:</strong> " ++ f4 ++ [newline]
         ++ lit "<strong>Contact:</strong> " ++ f5 ++ lit " (" ++ f6
         ++ lit ")" ++ [newline] ++ lit "<strong>Notes:</strong").
  transitivity (trim (newline :: 60 :: body ++ 62 :: lit " " ++ f7 ++ [newline])).
  - f_equal. subst body.
    change (lit "<strong>Booking Found for ")
      with (60 :: lit "strong>Booking Found for ").
    change (lit "<strong>Notes:</strong> ")
      with (lit "<strong>Notes:</strong" ++ 62 :: lit " ").
    flatten_app. reflexivity.
  - rewrite trim_template by reflexivity. subst body.
    change (lit "<strong>Booking Found for ")
      with (60 :: lit "strong>Booking Found for ").
    change (lit "<strong>Notes:</strong>")
      with (lit "<strong>Notes:</strong" ++ [62]).
    flatten_app. reflexivity.
Qed.

(** ** The hotel join *)

Lemma hotelMatches_named (lower : jsstring -> jsstring) (g : Guest.t)
      (h : Hotel.t) :
  hasName h -> hotelMatches lower g h = Return (hotelMatchesb lower g h).
Proof.
  intros [s Hs]. unfold hotelMatches, hotelMatchesb. rewrite Hs. reflexivity.
Qed.

(** Over hotels that all have a name the join is a plain search. *)
Lemma findHotel_named (lower : jsstring -> jsstring) (hotels : list Hotel.t)
      (g : Guest.t) :
  Forall hasName hotels ->
  findHotel lower hotels g = Return (List.find (hotelMatchesb lower g) hotels).
Proof.
  intros Hnamed. apply findM_pure. intros h Hh.
  apply hotelMatches_named. rewrite Forall_forall in Hnamed.
  apply Hnamed, list_elem_of_In, Hh.
Qed.

(** A hotel without a name stops the join with a [TypeError], whatever the
    guest's [hotelName] is. *)
Lemma findHotel_nameless (lower : jsstring -> jsstring) (h : Hotel.t)
      (hotels : list Hotel.t) (g : Guest.t) :
  ~ hasName h -> findHotel lower (h :: hotels) g = Throw TypeError.
Proof.
  intros Hh. unfold findHotel, hotelMatches. simpl.
  destruct (Hotel.name h) as [| |s] eqn:E; try reflexivity.
  exfalso. apply Hh. exists s. exact E.
Qed.

(** A guest without a [hotelName] joins with no named hotel. *)
Lemma find_hotel_without_hotelName (lower : jsstring -> jsstring)
      (hotels : list Hotel.t) (g : Guest.t) :
  (forall s, Guest.hotelName g <> JString s) ->
  List.find (hotelMatchesb lower g) hotels = None.
Proof.
  intros Hg. induction hotels as [|h hotels IH]; [reflexivity|].
  simpl. unfold hotelMatchesb at 1.
  destruct (Guest.hotelName g) as [| |s]; simpl; auto.
  exfalso. apply (Hg s). reflexivity.
Qed.

(** When the join finds no hotel, every hotel field of the reply is its
    placeholder. *)
Lemma bookingShown_without_hotel (g : Guest.t) :
  bookingShown g None =
  lit "<strong>Booking Found for " ++ templ (Guest.name g)
  ++ lit ":</strong>" ++ [newline]
  ++ lit "<strong>Hotel:</strong> "
  ++ fallback (Guest.hotelName g) (lit "N/A") ++ [newline]
  ++ lit "<strong>Room:</strong> "
  ++ fallback (Guest.roomNo g) (lit "N/A") ++ [newline]
  ++ lit "<strong>Address:</strong> Address not available" ++ [newline]
  ++ lit "<strong>Map:</strong> Map link not available" ++ [newline]
  ++ lit "<strong>Contact:</strong> N/A (N/A)" ++ [newline]
  ++ lit "<strong>Notes:</strong>"
  ++ trimEnd (lit " "
              ++ fallback (Guest.notes g)
                   (lit "Enjoy your stay! " ++ [55357; 56842])
              ++ [newline]).
Proof. reflexivity. Qed.

(** With named hotels of which none joins, the booking reply is sent, with
    the placeholders. *)
Lemma answer_without_hotel (lower : jsstring -> jsstring) (w : World)
      (um : jsstring) (ED : EventData) (st : Server) (g : Guest.t) :
  resolveBooking um (guests ED) = Return (Found g) ->
  Forall hasName (hotels ED) ->
  List.find (hotelMatchesb lower g) (hotels ED) = None ->
  answer lower w um ED st = (Return (okResponse (bookingShown g None)), st).
Proof.
  intros Hres Hnamed Hnone. rewrite (answer_Found lower w um ED st g Hres).
  rewrite (findHotel_named lower _ g Hnamed), Hnone, bookingReply_shown.
  reflexivity.
Qed.

(** ** The model path *)

Lemma shownCompletion_reply (content : jsval) :
  templ (jsOr (optTrim content) (JString modelFallback))
  = shownCompletion content.
Proof.
  destruct content as [| |s]; try reflexivity.
  unfold optTrim, jsOr, truthy, shownCompletion.
  destruct (trim s); reflexivity.
Qed.

(** The model path sends the request and replies with what comes back. *)
Lemma askModel_sends (w : World) (request : CompletionRequest) (st : Server) :
  askModel w request st = sentToModel w request st.
Proof.
  unfold askModel, sentToModel, pbind, plift, pret, logCompletion.
  destruct (chatCompletion w request) as [content|err]; [|reflexivity].
  rewrite shownCompletion_reply. reflexivity.
Qed.

Lemma answer_sends (lower : jsstring -> jsstring) (w : World)
      (um : jsstring) (ED : EventData) (st : Server) :
  phoneRegexMatch um = None ->
  answer lower w um ED st = sentToModel w (modelRequest ED um) st.
Proof.
  intros Hnone. rewrite answer_NoPhoneMentioned.
  - apply askModel_sends.
  - rewrite resolveBooking_pure, Hnone. reflexivity.
Qed.

(** ** The claims *)

(** C5. Normalization is idempotent: a string of digits only is returned
    unchanged, and normalizing the result of a normalization (of any
    value, [undefined] and [null] included) returns it unchanged. *)
Theorem normalizePhone_idempotent (s : jsstring) (v : jsval) :
  (forallb isDigit s = true -> normalizePhone (JString s) = Return s)
  /\ exists t, normalizePhone v = Return t
               /\ forallb isDigit t = true
               /\ normalizePhone (JString t) = Return t.
Proof.
  split.
  - intros Hs. rewrite normalizePhone_normalized. simpl.
    rewrite filter_isDigit_fixed; auto.
  - exists (normalized v). split; [apply normalizePhone_normalized|].
    split; [apply normalized_digits|].
    rewrite normalizePhone_normalized. simpl.
    rewrite filter_isDigit_fixed; auto using normalized_digits.
Qed.

Lemma normalizePhone_idempotent_witness :
  normalizePhone (JString (lit "9876543210")) = Return (lit "9876543210").
Proof.
  apply (proj1 (normalizePhone_idempotent (lit "9876543210") JNull)).
  reflexivity.
Defined.

(** C1. When the digits of the phone extracted from the message are [p]
    (the extracted text with every non-digit character stripped) and
    exactly one guest of the list (the one at index [i]) has a stored
    phone whose digits, all other characters stripped, are not empty and
    end with [p], the resolution returns that guest. *)
Theorem unique_suffix_match_is_returned
        (msg rawPhone p : jsstring) (guests : list Guest.t) (i : nat)
        (g : Guest.t) :
  phoneRegexMatch msg = Some rawPhone ->
  List.filter isDigit rawPhone = p ->
  guests !! i = Some g ->
  storedDigitsEndWith p g ->
  (forall j g', guests !! j = Some g' -> storedDigitsEndWith p g' -> j = i) ->
  resolveBooking msg guests = Return (Found g).
Proof.
  intros Hmatch Hp Hi Hg Huniq.
  assert (Hspec : forall g', guestMatchesb p g' = true <->
                             storedDigitsEndWith p g').
  { intros g'. unfold guestMatchesb, storedDigitsEndWith.
    rewrite andb_true_iff, endsWith_suffix.
    destruct (normalized (Guest.phone g')); simpl; intuition congruence. }
  rewrite resolveBooking_pure, Hmatch.
  change (normalized (JString rawPhone)) with (List.filter isDigit rawPhone).
  rewrite Hp.
  rewrite (find_unique (guestMatchesb p) guests i g); auto.
  - apply Hspec, Hg.
  - intros j g' Hj Hg'. apply (Huniq j g' Hj). apply Hspec, Hg'.
Qed.

Lemma unique_suffix_match_is_returned_witness :
  resolveBooking callMessage
    [guestWithPhone "Ravi" "+91 99999 00000";
     guestWithPhone "Asha" "+91 98765-43210"]
  = Return (Found (guestWithPhone "Asha" "+91 98765-43210")).
Proof.
  apply (unique_suffix_match_is_returned callMessage (lit "9876543210")
           (lit "9876543210") _ 1%nat).
  - reflexivity.
  - reflexivity.
  - reflexivity.
  - split; [vm_compute; discriminate | exists (lit "91"); reflexivity].
  - intros [|[|j]] g' Hj [_ Hsuf]; [exfalso | reflexivity | discriminate].
    injection Hj as <-. apply endsWith_suffix in Hsuf.
    vm_compute in Hsuf. discriminate.
Defined.

(** C6. The resolver never throws: on every message and guest list it
    returns one of the three outcomes.  [NoPhoneMentioned] is returned
    exactly when the message has no phone, [NotFound] exactly when it has
    one that no guest's phone ends with, and a guest that is found belongs
    to the list and matches.  Normalizing [null], [undefined] or the empty
    string gives the empty string, and a guest whose normalized phone is
    empty is never the one found. *)
Theorem resolver_never_throws (msg : jsstring) (guests : list Guest.t) :
  (normalizePhone JNull = Return []
   /\ normalizePhone JUndefined = Return []
   /\ normalizePhone (JString []) = Return [])
  /\ (exists r, resolveBooking msg guests = Return r
        /\ (r = NoPhoneMentioned <-> phoneRegexMatch msg = None)
        /\ (r = NotFound <->
            exists rawPhone p, phoneRegexMatch msg = Some rawPhone
              /\ normalizePhone (JString rawPhone) = Return p
              /\ forall g, In g guests -> ~ phoneEndsWith p g)
        /\ (forall g, r = Found g ->
            In g guests
            /\ exists rawPhone p, phoneRegexMatch msg = Some rawPhone
                 /\ normalizePhone (JString rawPhone) = Return p
                 /\ phoneEndsWith p g))
  /\ (forall g, normalizePhone (Guest.phone g) = Return [] ->
                resolveBooking msg guests <> Return (Found g)).
Proof.
  split; [repeat split|]. rewrite resolveBooking_pure.
  destruct (phoneRegexMatch msg) as [raw|] eqn:Hmatch.
  - set (p := normalized (JString raw)).
    destruct (List.find (guestMatchesb p) guests) as [g0|] eqn:Hfind.
    + split.
      * exists (Found g0). split; [reflexivity|]. split; [easy|]. split.
        -- split; [discriminate|]. intros (raw' & p' & [= <-] & Hp' & Hno).
           rewrite normalizePhone_normalized in Hp'. injection Hp' as <-.
           apply find_some in Hfind as [Hin Hg0].
           exfalso. apply (Hno g0 Hin). apply guestMatchesb_spec, Hg0.
        -- intros g [= <-]. apply find_some in Hfind as [Hin Hg0].
           split; [exact Hin|]. exists raw, p.
           repeat split; [apply normalizePhone_normalized|].
           apply guestMatchesb_spec, Hg0.
      * intros g Hempty [= ->]. apply find_some in Hfind as [_ Hg].
        apply guestMatchesb_spec in Hg as (n & Hn & Hne & _). congruence.
    + split.
      * exists NotFound. split; [reflexivity|]. split; [easy|]. split.
        -- split; [|reflexivity]. intros _. exists raw, p.
           repeat split; [apply normalizePhone_normalized|].
           intros g Hin Hg. apply guestMatchesb_spec in Hg.
           pose proof (find_none _ _ Hfind g Hin). congruence.
        -- discriminate.
      * discriminate.
  - split.
    + exists NoPhoneMentioned. split; [reflexivity|]. split; [easy|]. split.
      * split; [discriminate|]. intros (raw & p & Habs & _). discriminate.
      * discriminate.
    + discriminate.
Qed.

Lemma resolver_never_throws_witness :
  resolveBooking callMessage
    [Guest.Build JUndefined (JString (lit "Ravi")) JNull JNull JNull]
  <> Return
       (Found (Guest.Build JUndefined (JString (lit "Ravi")) JNull JNull JNull)).
Proof.
  apply (proj2 (proj2 (resolver_never_throws callMessage _))).
  reflexivity.
Defined.

(** C2, as the code has it.  The message with the spaced number holds no
    run of 10 to 13 digits, so no phone is extracted from it: its
    resolution is [NoPhoneMentioned], whatever the roster, and the handler
    passes it to the completion API (the request with the message in its
    prompt is sent, and the reply is made of the content that comes
    back).  The same number written without spaces is extracted with its
    sign and country code, and against guests whose stored phone is the
    bare ten digits the resolution is [NotFound] and the reply is the
    no-booking notice: the query must be a suffix of the stored phone, and
    here it is the stored phone that is a suffix of the query. *)
Theorem spaced_number_is_not_extracted
        (lower : jsstring -> jsstring) (w : World) (ED : EventData)
        (st : Server) :
  phoneRegexMatch spacedMessage = None
  /\ resolveBooking spacedMessage (guests ED) = Return NoPhoneMentioned
  /\ answer lower w spacedMessage ED
     = askModel w (completionRequest ED spacedMessage)
  /\ completions (snd (answer lower w spacedMessage ED st))
     = modelRequest ED spacedMessage :: completions st
  /\ fst (answer lower w spacedMessage ED st)
     = match chatCompletion w (modelRequest ED spacedMessage) with
       | Return content =>
           Return {| statusCode := 200; reply := shownCompletion content |}
       | Throw err => Throw err
       end
  /\ phoneRegexMatch unspacedMessage = Some (lit "+919876543210")
  /\ normalizePhone (JString (lit "+919876543210"))
     = Return (lit "919876543210")
  /\ lit "9876543210" `suffix_of` lit "919876543210"
  /\ ~ lit "919876543210" `suffix_of` lit "9876543210"
  /\ (Forall (fun g => Guest.phone g = JString (lit "9876543210"))
             (guests ED) ->
      resolveBooking unspacedMessage (guests ED) = Return NotFound
      /\ answer lower w unspacedMessage ED st
         = (Return {| statusCode := 200; reply := noBookingReply |}, st)).
Proof.
  assert (Hspaced : resolveBooking spacedMessage (guests ED)
                    = Return NoPhoneMentioned).
  { rewrite resolveBooking_pure. reflexivity. }
  split; [reflexivity|]. split; [exact Hspaced|]. split.
  { apply answer_NoPhoneMentioned, Hspaced. }
  split.
  { rewrite (answer_sends lower w spacedMessage ED st eq_refl). reflexivity. }
  split.
  { rewrite (answer_sends lower w spacedMessage ED st eq_refl). reflexivity. }
  split; [reflexivity|]. split; [reflexivity|]. split.
  { exists (lit "91"). reflexivity. }
  split.
  { intros Hsuf. apply endsWith_suffix in Hsuf. discriminate. }
  intros Hphones.
  assert (Hres : resolveBooking unspacedMessage (guests ED) = Return NotFound).
  { rewrite resolveBooking_pure.
    change (phoneRegexMatch unspacedMessage)
      with (Some (lit "+919876543210")).
    cbv iota.
    change (normalized (JString (lit "+919876543210")))
      with (lit "919876543210").
    rewrite find_all_false; [reflexivity|].
    eapply Forall_impl; [exact Hphones|]. intros g Hg. simpl in Hg.
    unfold guestMatchesb. rewrite Hg. reflexivity. }
  split; [exact Hres|]. apply answer_NotFound, Hres.
Qed.

Lemma spaced_number_is_not_extracted_witness :
  answer (fun s => s) sheetWorld unspacedMessage
    (snapshotOf [guestWithPhone "Asha" "9876543210"] []) initialServer
  = (Return {| statusCode := 200; reply := noBookingReply |}, initialServer).
Proof.
  apply (spaced_number_is_not_extracted (fun s => s) sheetWorld
           (snapshotOf [guestWithPhone "Asha" "9876543210"] [])
           initialServer).
  repeat constructor.
Defined.

(** C2, as the claim states it, fails: for the spaced message and a guest
    with phone 9876543210 the resolution is not [NotFound]. *)
Lemma spaced_number_resolution_is_not_NotFound :
  resolveBooking spacedMessage [guestWithPhone "Asha" "9876543210"]
  <> Return NotFound.
Proof. vm_compute. discriminate. Qed.

(** Without a match there is no run of 10 to 13 digits in the message. *)
Lemma no_match_no_digit_run (s : jsstring) :
  phoneRegexMatch s = None ->
  forall a d b, s = a ++ d ++ b -> (10 <= length d <= 13)%nat ->
                forallb isDigit d = false.
Proof.
  intros Hnone a d b Hs Hlen.
  destruct (forallb isDigit d) eqn:Hd; [|reflexivity].
  rewrite <- (phoneRegexMatch_None s Hnone a d b Hs).
  symmetry. apply phoneLike_digits; assumption.
Qed.

(** A prefix of a message without a run of digits has none either. *)
Lemma no_digit_run_take (n : nat) (s : jsstring) :
  (forall a d b, s = a ++ d ++ b -> (10 <= length d <= 13)%nat ->
                 forallb isDigit d = false) ->
  forall a d b, take n s = a ++ d ++ b -> (10 <= length d <= 13)%nat ->
                forallb isDigit d = false.
Proof.
  intros Hrun a d b Hs Hlen. apply (Hrun a d (b ++ drop n s)); [|exact Hlen].
  rewrite <- (take_drop n s) at 1. rewrite Hs, <- !app_assoc. reflexivity.
Qed.

(** C3. A message that contains no run of 10 to 13 consecutive digits
    resolves to [NoPhoneMentioned] against every guest list, and the
    handler hands it (cut to any length, as the endpoint cuts it to 500) to
    the completion API: the request, with the prompt made of the context
    document and of the message, is sent, and the reply is made of the
    content that comes back (a failure of the API is thrown on, and the
    endpoint answers it with the status 500).  When the message does
    contain a match, the match used is the one at the leftmost position
    where a phone-like string starts, and the resolution is that of this
    match alone. *)
Theorem no_digit_run_is_NoPhoneMentioned (msg : jsstring) :
  ((forall a d b, msg = a ++ d ++ b -> (10 <= length d <= 13)%nat ->
                  forallb isDigit d = false) ->
   (forall guests, resolveBooking msg guests = Return NoPhoneMentioned)
   /\ (forall lower w ED n,
         answer lower w (take n msg) ED
         = askModel w (completionRequest ED (take n msg)))
   /\ (forall lower w ED n st,
         completions (snd (answer lower w (take n msg) ED st))
         = modelRequest ED (take n msg) :: completions st
         /\ fst (answer lower w (take n msg) ED st)
            = match chatCompletion w (modelRequest ED (take n msg)) with
              | Return content =>
                  Return {| statusCode := 200;
                            reply := shownCompletion content |}
              | Throw err => Throw err
              end)
   /\ (forall lower parse w st ED st1,
         getEventData parse w st = (Return ED, st1) ->
         completions (snd (chat lower parse w (JString msg) st))
         = modelRequest ED (take 500 msg) :: completions st1
         /\ fst (chat lower parse w (JString msg) st)
            = match chatCompletion w (modelRequest ED (take 500 msg)) with
              | Return content =>
                  {| statusCode := 200; reply := shownCompletion content |}
              | Throw _ =>
                  {| statusCode := 500; reply := genericApology |}
              end))
  /\ (forall m, phoneRegexMatch msg = Some m ->
        (exists a b,
            msg = a ++ m ++ b
            /\ phoneLike m = true
            /\ forall a1 a2 w r,
                 a = a1 ++ a2 -> a2 <> [] -> a2 ++ m ++ b = w ++ r ->
                 phoneLike w = false)
        /\ forall guests, resolveBooking msg guests = resolveBooking m guests).
Proof.
  split.
  - intros Hrun.
    assert (Hnone : forall n, phoneRegexMatch (take n msg) = None).
    { intros n. apply no_digit_run_no_match, no_digit_run_take, Hrun. }
    split; [|split; [|split]].
    + intros guests. rewrite resolveBooking_pure.
      rewrite (no_digit_run_no_match msg Hrun). reflexivity.
    + intros lower w ED n. apply answer_NoPhoneMentioned.
      rewrite resolveBooking_pure, (Hnone n). reflexivity.
    + intros lower w ED n st.
      rewrite (answer_sends lower w (take n msg) ED st (Hnone n)).
      split; reflexivity.
    + intros lower parse w st ED st1 Hget.
      rewrite chat_stages, Hget. cbn [messageString].
      rewrite (answer_sends lower w (take 500 msg) ED st1 (Hnone 500%nat)).
      unfold sentToModel.
      destruct (chatCompletion w (modelRequest ED (take 500 msg)));
        split; reflexivity.
  - intros m Hm. split.
    + destruct (phoneRegexMatch_Some msg m Hm)
        as (a & b & Hs & Hlike & Hleft & _).
      exists a, b. auto.
    + intros guests. rewrite !resolveBooking_pure, Hm.
      destruct (phoneRegexMatch_Some msg m Hm) as (_ & _ & _ & Hlike & _).
      rewrite (phoneRegexMatch_phoneLike m Hlike). reflexivity.
Qed.

Lemma no_digit_run_is_NoPhoneMentioned_witness :
  (resolveBooking spacedMessage [guestWithPhone "Asha" "9876543210"]
   = Return NoPhoneMentioned
   /\ completions
        (snd (answer (fun s => s) sheetWorld (take 500 spacedMessage)
                loadedSnapshot loadedServer))
      = [modelRequest loadedSnapshot (take 500 spacedMessage)])
  /\ resolveBooking (lit "call 9876543210 or +919123456789")
       [guestWithPhone "Ravi" "919123456789";
        guestWithPhone "Asha" "+91-9876543210"]
     = resolveBooking (lit "9876543210")
         [guestWithPhone "Ravi" "919123456789";
          guestWithPhone "Asha" "+91-9876543210"].
Proof.
  split.
  - destruct (proj1 (no_digit_run_is_NoPhoneMentioned spacedMessage))
      as (Hres & _ & Hsent & _).
    + apply no_match_no_digit_run. reflexivity.
    + split; [apply Hres|].
      apply (proj1 (Hsent (fun s => s) sheetWorld loadedSnapshot 500%nat
                      loadedServer)).
  - apply (proj2 (no_digit_run_is_NoPhoneMentioned
                    (lit "call 9876543210 or +919123456789"))
             (lit "9876543210")).
    reflexivity.
Defined.

Lemma find_first {A} (q : A -> bool) (before after : list A) (x : A) :
  Forall (fun y => q y = false) before -> q x = true ->
  List.find q (before ++ x :: after) = Some x.
Proof.
  intros Hbefore Hx. induction Hbefore as [|y before Hy _ IH]; simpl.
  - rewrite Hx. reflexivity.
  - rewrite Hy. exact IH.
Qed.

(** C10, at an input where the code fails.  In the deployment whose hotels
    sheet has no [name] column, the guest of the message is found and her
    [hotelName] can join no hotel, yet the handler does not send the
    booking reply: the join throws a [TypeError] on the hotel's missing
    name, and the request ends with status 500 and the generic apology. *)
Theorem nameless_hotel_breaks_booking_reply (lower : jsstring -> jsstring) :
  let message := JString (lit "9876543210") in
  let result := chat lower sheetParse sheetWorld message initialServer in
  (exists ED g,
      cachedEventData (snd result) = Some ED
      /\ resolveBooking (lit "9876543210") (guests ED) = Return (Found g)
      /\ Guest.hotelName g = JString (lit "Taj")
      /\ Forall (fun h => Hotel.name h = JUndefined) (hotels ED)
      /\ findHotel lower (hotels ED) g = Throw TypeError)
  /\ fst result = errorResponse
  /\ consoleErrors (snd result) = [TypeError].
Proof.
  cbv zeta. split; [|split; reflexivity].
  eexists. eexists. split; [reflexivity|].
  split; [reflexivity|]. split; [reflexivity|].
  split; [repeat constructor | reflexivity].
Qed.

(** ** The cache *)

Lemma afterFetches_refl (st : Server) : afterFetches st st.
Proof. unfold afterFetches. repeat split; reflexivity. Qed.

Lemma afterFetches_trans (st st1 st2 : Server) :
  afterFetches st st1 -> afterFetches st1 st2 -> afterFetches st st2.
Proof.
  intros (H1 & H2 & H3 & H4 & H5) (K1 & K2 & K3 & K4 & K5).
  repeat split; try congruence. etransitivity; eassumption.
Qed.

Lemma onlyFetches_pret {A} (a : A) : onlyFetches (pret a).
Proof. intros st. apply afterFetches_refl. Qed.

Lemma onlyFetches_pthrow {A} (err : exn) : onlyFetches (@pthrow A err).
Proof. intros st. apply afterFetches_refl. Qed.

Lemma onlyFetches_plift {A} (r : result A) : onlyFetches (plift r).
Proof. intros st. apply afterFetches_refl. Qed.

Lemma onlyFetches_logFetch (url : jsstring) : onlyFetches (logFetch url).
Proof.
  intros st. repeat split. simpl. apply suffix_cons_r. reflexivity.
Qed.

Lemma onlyFetches_pbind {A B} (m : proc A) (k : A -> proc B) :
  onlyFetches m -> (forall a, onlyFetches (k a)) -> onlyFetches (pbind m k).
Proof.
  intros Hm Hk st. unfold pbind. specialize (Hm st).
  destruct (m st) as [[a|err] st1]; simpl in *; [|exact Hm].
  apply (afterFetches_trans st st1); [exact Hm | apply Hk].
Qed.

Lemma loadCsv_onlyFetches (parse : jsstring -> result (list Row))
      (w : World) (url : jsstring) :
  onlyFetches (loadCsv parse w url).
Proof.
  unfold loadCsv. apply onlyFetches_pbind; [apply onlyFetches_logFetch|].
  intros _. apply onlyFetches_pbind; [apply onlyFetches_plift|].
  intros res. destruct (negb (ok res));
    [apply onlyFetches_pthrow | apply onlyFetches_plift].
Qed.

(** The loader touches neither the cache nor its time stamp. *)
Lemma build_onlyFetches (parse : jsstring -> result (list Row)) (w : World) :
  onlyFetches (buildEventDataFromSheets parse w).
Proof.
  unfold buildEventDataFromSheets. cbv zeta.
  repeat first
    [ apply loadCsv_onlyFetches
    | apply onlyFetches_pret
    | apply onlyFetches_pthrow
    | apply onlyFetches_pbind; [|intros ?]
    | match goal with
      | |- onlyFetches (if ?c then _ else _) => destruct c
      end ].
Qed.

Lemma getEventDataEach_fresh (parse : jsstring -> result (list Row))
      (ws : list World) (st : Server) (d : EventData) :
  cachedEventData st = Some d ->
  Forall (fun w => (dateNow w - lastLoadedMs st < CACHE_TTL_MS)%Z) ws ->
  getEventDataEach parse ws st = (List.map (fun _ => Return d) ws, st).
Proof.
  intros Hc Hws. induction Hws as [|w ws Hw _ IH]; [reflexivity|].
  simpl. rewrite (getEventData_fresh parse w st d Hc Hw), IH. reflexivity.
Qed.

Lemma stale_cache (now : Z) (st : Server) :
  cachedEventData st = None
  \/ (CACHE_TTL_MS <= now - lastLoadedMs st)%Z ->
  cacheIsFresh now (cachedEventData st, lastLoadedMs st) = false.
Proof.
  intros [-> | Hage]; [reflexivity|]. unfold cacheIsFresh.
  destruct (cachedEventData st); [|reflexivity]. apply Z.ltb_ge, Hage.
Qed.

(** C7. The window is five minutes.  While a cached snapshot [d] is
    younger than that, [getEventData] returns [d] and leaves the state as
    it is (no fetch is made, nothing is stored), whatever the remote sheets
    and the environment hold at that time; so does any series of calls
    inside the window.  Once the cache is as old as the window or older,
    the snapshot is rebuilt from the sheets as they are then, and the
    rebuilt snapshot replaces the cached one whole, with the time of the
    call; a rebuild that throws leaves the cache as it was. *)
Theorem cache_serves_snapshot_within_ttl
        (parse : jsstring -> result (list Row)) (st : Server)
        (d : EventData) :
  cachedEventData st = Some d ->
  CACHE_TTL_MS = (5 * 60 * 1000)%Z
  /\ (forall w, (dateNow w - lastLoadedMs st < CACHE_TTL_MS)%Z ->
                getEventData parse w st = (Return d, st))
  /\ (forall ws,
        Forall (fun w => (dateNow w - lastLoadedMs st < CACHE_TTL_MS)%Z) ws ->
        getEventDataEach parse ws st = (List.map (fun _ => Return d) ws, st))
  /\ (forall w, (CACHE_TTL_MS <= dateNow w - lastLoadedMs st)%Z ->
        match buildEventDataFromSheets parse w st with
        | (Return data, st1) =>
            getEventData parse w st =
            (Return data,
             {| cachedEventData := Some data; lastLoadedMs := dateNow w;
                fetched := fetched st1; consoleErrors := consoleErrors st1;
                completions := completions st1 |})
        | (Throw err, st1) =>
            getEventData parse w st = (Throw err, st1)
            /\ cachedEventData st1 = Some d
        end).
Proof.
  intros Hc. split; [reflexivity|]. split.
  { intros w Hw. apply (getEventData_fresh parse w st d Hc Hw). }
  split.
  { intros ws Hws. apply (getEventDataEach_fresh parse ws st d Hc Hws). }
  intros w Hage.
  rewrite (getEventData_stale parse w st)
    by (apply stale_cache; right; exact Hage).
  destruct (buildEventDataFromSheets parse w st) as [[data|err] st1] eqn:Hb;
    [reflexivity|].
  split; [reflexivity|].
  pose proof (build_onlyFetches parse w st) as Hst1. rewrite Hb in Hst1.
  destruct Hst1 as [Hcache _]. simpl in Hcache. congruence.
Qed.

Lemma cache_serves_snapshot_within_ttl_witness :
  getEventData sheetParse (offlineWorldAt 1700000299999) loadedServer
  = (Return loadedSnapshot, loadedServer).
Proof.
  apply (proj1 (proj2 (cache_serves_snapshot_within_ttl sheetParse
                         loadedServer loadedSnapshot eq_refl))).
  vm_compute. reflexivity.
Defined.

(** ** The error path *)

Lemma askModel_status (w : World) (request : CompletionRequest)
      (st st' : Server) (r : Response) :
  askModel w request st = (Return r, st') -> statusCode r = 200.
Proof.
  unfold askModel, pbind, plift, logCompletion, pret.
  destruct (chatCompletion w request); intros [= <- _]; reflexivity.
Qed.

Lemma answer_status (lower : jsstring -> jsstring) (w : World)
      (um : jsstring) (ED : EventData) (st st' : Server) (r : Response) :
  answer lower w um ED st = (Return r, st') -> statusCode r = 200.
Proof.
  unfold answer. rewrite lookupGuest_pure. unfold pbind at 1, plift at 1.
  destruct (phoneRegexMatch um) as [raw|].
  - destruct (List.find _ (guests ED)) as [g|].
    + unfold pbind, plift, pret.
      destruct (findHotel lower (hotels ED) g); intros [= <- _]; reflexivity.
    + intros [= <- _]. reflexivity.
  - apply askModel_status.
Qed.

(** A response has status 500 only as the catch block builds it. *)
Lemma chat_500_is_generic (lower : jsstring -> jsstring)
      (parse : jsstring -> result (list Row)) (w : World) (message : jsval)
      (st : Server) :
  statusCode (fst (chat lower parse w message st)) = 500 ->
  fst (chat lower parse w message st) = errorResponse.
Proof.
  rewrite chat_stages.
  destruct (getEventData parse w st) as [[ED|err] st1]; [|reflexivity].
  destruct (answer lower w _ ED st1) as [[r|err] st2] eqn:Ha; [|reflexivity].
  apply answer_status in Ha. simpl. rewrite Ha. discriminate.
Qed.

(** C8. When the location of the meta sheet or of the events sheet is
    unset (read as falsy), the rebuild throws the configuration error at
    once: the state is as it was, so no fetch has been made.  A request
    that needs the rebuild (no fresh cache) is answered with status 500 and
    the generic apology, the error goes to the console only, and still
    nothing has been fetched.  Every response of status 500, whatever its
    cause, is this same fixed reply. *)
Theorem missing_location_is_generic_500
        (lower : jsstring -> jsstring)
        (parse : jsstring -> result (list Row)) (w : World) (message : jsval)
        (st : Server) :
  truthy (META_CSV_URL (processEnv w)) = false
  \/ truthy (EVENTS_CSV_URL (processEnv w)) = false ->
  buildEventDataFromSheets parse w st = (Throw (Error configErrorMessage), st)
  /\ (cacheIsFresh (dateNow w) (cachedEventData st, lastLoadedMs st) = false ->
      getEventData parse w st = (Throw (Error configErrorMessage), st)
      /\ chat lower parse w message st
         = ({| statusCode := 500; reply := genericApology |},
            {| cachedEventData := cachedEventData st;
               lastLoadedMs := lastLoadedMs st;
               fetched := fetched st;
               consoleErrors := Error configErrorMessage :: consoleErrors st;
               completions := completions st |}))
  /\ (forall w' message' st',
        statusCode (fst (chat lower parse w' message' st')) = 500 ->
        reply (fst (chat lower parse w' message' st')) = genericApology).
Proof.
  intros Hunset.
  pose proof (build_unconfigured parse w st Hunset) as Hbuild.
  split; [exact Hbuild|]. split.
  - intros Hstale.
    assert (Hget : getEventData parse w st
                   = (Throw (Error configErrorMessage), st)).
    { rewrite (getEventData_stale parse w st Hstale), Hbuild. reflexivity. }
    split; [exact Hget|]. rewrite chat_stages, Hget. reflexivity.
  - intros w' message' st' H500.
    rewrite (chat_500_is_generic lower parse w' message' st' H500).
    reflexivity.
Qed.

Lemma missing_location_is_generic_500_witness :
  chat (fun s => s) sheetParse unconfiguredWorld (JString callMessage)
    initialServer
  = ({| statusCode := 500; reply := genericApology |},
     {| cachedEventData := None; lastLoadedMs := 0%Z; fetched := [];
        consoleErrors := [Error configErrorMessage]; completions := [] |}).
Proof.
  apply (proj2 (proj1 (proj2 (missing_location_is_generic_500 (fun s => s)
           sheetParse unconfiguredWorld (JString callMessage) initialServer
           (or_introl eq_refl))) eq_refl)).
Defined.

(** C9. The handler keeps the first 500 code units of the message (all of
    it when it is shorter, nothing when it is missing) and works on them
    alone: the phone lookup and the prompt are computed from the truncated
    message, so two requests whose messages agree on their first 500 code
    units get the same response and leave the same state. *)
Theorem message_is_truncated_to_500
        (lower : jsstring -> jsstring)
        (parse : jsstring -> result (list Row)) (w : World)
        (message message' : jsval) (st : Server) :
  let userMessage := take 500 (messageString message) in
  userMessageOf message = Return userMessage
  /\ (length userMessage <= 500)%nat
  /\ userMessage `prefix_of` messageString message
  /\ chat lower parse w message st
     = match getEventData parse w st with
       | (Return ED, st1) =>
           match answer lower w userMessage ED st1 with
           | (Return r, st2) => (r, st2)
           | (Throw err, st2) => (errorResponse, withConsoleError err st2)
           end
       | (Throw err, st1) => (errorResponse, withConsoleError err st1)
       end
  /\ (forall ED, userContent (completionRequest ED userMessage)
                 = userPrompt (buildContextFromEventData ED) userMessage)
  /\ (take 500 (messageString message') = userMessage ->
      chat lower parse w message' st = chat lower parse w message st).
Proof.
  cbv zeta. split; [apply userMessageOf_total|]. split.
  { rewrite length_take. lia. }
  split; [apply prefix_take|]. split; [apply chat_stages|].
  split; [reflexivity|].
  intros Hsame. rewrite !chat_stages, Hsame. reflexivity.
Qed.

Lemma message_is_truncated_to_500_witness :
  chat (fun s => s) sheetParse sheetWorld (JString longMessagePrefix)
    initialServer
  = chat (fun s => s) sheetParse sheetWorld (JString longMessage)
      initialServer.
Proof.
  apply (message_is_truncated_to_500 (fun s => s) sheetParse sheetWorld
           (JString longMessage) (JString longMessagePrefix) initialServer).
  vm_compute. reflexivity.
Defined.

(** The number of [longMessage] lies beyond the cut: the whole message
    holds a phone, what the handler keeps of it does not, and the request
    goes to the completion API. *)
Example truncation_hides_late_phone :
  phoneRegexMatch longMessage = Some (lit "9876543210")
  /\ phoneRegexMatch (take 500 longMessage) = None
  /\ length (completions
               (snd (chat (fun s => s) sheetParse sheetWorld
                       (JString longMessage) initialServer))) = 1%nat.
Proof. vm_compute. repeat split. Qed.

(** * Further properties of the code *)

(** ** The extracted query *)

Lemma filter_isDigit_signed (sign d : jsstring) :
  sign = [] \/ sign = [plusSign] -> forallb isDigit d = true ->
  List.filter isDigit (sign ++ d) = d.
Proof.
  intros [-> | ->] Hd; simpl; apply filter_isDigit_fixed, Hd.
Qed.

(** What the handler looks up once the pattern has matched: the digits of
    the match, 10 to 13 of them. *)
Lemma phoneRegexMatch_query (msg rawPhone : jsstring) :
  phoneRegexMatch msg = Some rawPhone ->
  forallb isDigit (normalized (JString rawPhone)) = true
  /\ (10 <= length (normalized (JString rawPhone)) <= 13)%nat
  /\ (rawPhone = normalized (JString rawPhone)
      \/ rawPhone = plusSign :: normalized (JString rawPhone)).
Proof.
  intros Hm.
  destruct (phoneRegexMatch_Some msg rawPhone Hm) as (_ & _ & _ & Hlike & _).
  apply phoneLike_inv in Hlike as (sign & d & -> & Hsign & Hd & Hlen).
  simpl. rewrite (filter_isDigit_signed sign d Hsign Hd).
  repeat split; auto; try lia.
  destruct Hsign as [-> | ->]; [left | right]; reflexivity.
Qed.

(** The query the handler searches the roster for is never shorter than 10
    digits nor longer than 13: it is the match itself, without its sign. *)
Theorem extracted_query_has_10_to_13_digits (msg rawPhone : jsstring) :
  phoneRegexMatch msg = Some rawPhone ->
  exists p, normalizePhone (JString rawPhone) = Return p
            /\ forallb isDigit p = true
            /\ (10 <= length p <= 13)%nat
            /\ (rawPhone = p \/ rawPhone = plusSign :: p).
Proof.
  intros Hm. exists (normalized (JString rawPhone)).
  split; [apply normalizePhone_normalized|].
  apply (phoneRegexMatch_query msg rawPhone Hm).
Qed.

Lemma extracted_query_has_10_to_13_digits_witness :
  exists p, normalizePhone (JString (lit "+919876543210")) = Return p
            /\ forallb isDigit p = true
            /\ (10 <= length p <= 13)%nat
            /\ (lit "+919876543210" = p \/ lit "+919876543210" = plusSign :: p).
Proof.
  apply (extracted_query_has_10_to_13_digits unspacedMessage).
  reflexivity.
Defined.

(** A guest whose stored phone has fewer than 10 digits can never be found,
    whatever the message: the query has at least 10 and must be a suffix of
    the stored digits. *)
Theorem short_stored_phone_is_never_found
        (msg : jsstring) (guests : list Guest.t) (g : Guest.t) (n : jsstring) :
  normalizePhone (Guest.phone g) = Return n ->
  (length n < 10)%nat ->
  resolveBooking msg guests <> Return (Found g).
Proof.
  intros Hn Hshort. rewrite resolveBooking_pure.
  rewrite normalizePhone_normalized in Hn. injection Hn as Hn.
  destruct (phoneRegexMatch msg) as [raw|] eqn:Hm; [|discriminate].
  destruct (List.find _ guests) as [g'|] eqn:Hfind; [|discriminate].
  intros [= ->]. apply find_some in Hfind as [_ Hg].
  unfold guestMatchesb in Hg. apply andb_true_iff in Hg as [_ Hends].
  apply endsWith_suffix, suffix_length in Hends.
  destruct (phoneRegexMatch_query msg raw Hm) as (_ & Hlen & _).
  rewrite Hn in Hends. lia.
Qed.

Lemma short_stored_phone_is_never_found_witness :
  resolveBooking (lit "I am on 9876543210")
    [guestWithPhone "Asha" "76543210"]
  <> Return (Found (guestWithPhone "Asha" "76543210")).
Proof.
  apply (short_stored_phone_is_never_found _ _ _ (lit "76543210")).
  - reflexivity.
  - vm_compute. lia.
Defined.

(** First match wins: with the guest [g] matching the query and no guest
    before it in the roster matching, [g] is the one found, whoever comes
    after it (later guests with the same phone included). *)
Theorem first_matching_guest_wins
        (msg rawPhone p : jsstring) (before after : list Guest.t)
        (g : Guest.t) :
  phoneRegexMatch msg = Some rawPhone ->
  normalizePhone (JString rawPhone) = Return p ->
  Forall (fun g' => ~ phoneEndsWith p g') before ->
  phoneEndsWith p g ->
  resolveBooking msg (before ++ g :: after) = Return (Found g).
Proof.
  intros Hm Hp Hbefore Hg.
  rewrite normalizePhone_normalized in Hp. injection Hp as Hp.
  rewrite resolveBooking_pure, Hm.
  change (normalized (JString rawPhone)) with (List.filter isDigit rawPhone).
  rewrite Hp.
  rewrite (find_first (guestMatchesb p) before after g); [reflexivity | |].
  - eapply Forall_impl; [exact Hbefore|]. intros g' Hg'. simpl in Hg'.
    destruct (guestMatchesb p g') eqn:E; [|reflexivity].
    exfalso. apply Hg', guestMatchesb_spec, E.
  - apply guestMatchesb_spec, Hg.
Qed.

Lemma first_matching_guest_wins_witness :
  resolveBooking callMessage
    ([guestWithPhone "Ravi" "+91 99999 00000"]
       ++ guestWithPhone "Asha" "+91-9876543210"
       :: [guestWithPhone "Meera" "9876543210"])
  = Return (Found (guestWithPhone "Asha" "+91-9876543210")).
Proof.
  apply (first_matching_guest_wins callMessage (lit "9876543210")
           (lit "9876543210")).
  - reflexivity.
  - reflexivity.
  - constructor; [|constructor]. intros Hg. apply guestMatchesb_spec in Hg.
    vm_compute in Hg. discriminate.
  - apply guestMatchesb_spec. reflexivity.
Defined.

(** Any 10 digits in a row make the message a phone message: the pattern
    matches (with a match of 10 to 14 code units), so the resolution is
    never [NoPhoneMentioned], whatever else the message says. *)
Theorem ten_digits_in_a_row_are_a_phone (a d b : jsstring) :
  forallb isDigit d = true ->
  (10 <= length d)%nat ->
  exists m, phoneRegexMatch (a ++ d ++ b) = Some m
            /\ (10 <= length m <= 14)%nat
            /\ forall guests,
                 resolveBooking (a ++ d ++ b) guests <> Return NoPhoneMentioned.
Proof.
  intros Hd Hlen.
  destruct (phoneRegexMatch (a ++ d ++ b)) as [m|] eqn:Hm.
  - exists m. split; [reflexivity|]. split.
    + destruct (phoneRegexMatch_Some _ m Hm) as (_ & _ & _ & Hlike & _).
      apply phoneLike_inv in Hlike as (sign & d' & -> & Hsign & _ & Hlen').
      rewrite length_app. destruct Hsign as [-> | ->]; simpl; lia.
    + intros guests. rewrite resolveBooking_pure, Hm.
      destruct (List.find _ guests); discriminate.
  - exfalso.
    assert (Hlike : phoneLike (take 10 d) = true).
    { apply phoneLike_digits.
      - rewrite <- (take_drop 10 d), forallb_app in Hd.
        apply andb_true_iff in Hd as [Hd _]. exact Hd.
      - rewrite length_take. lia. }
    rewrite (phoneRegexMatch_None _ Hm a (take 10 d) (drop 10 d ++ b))
      in Hlike; [discriminate|].
    rewrite (app_assoc (take 10 d)), take_drop. reflexivity.
Qed.

Lemma ten_digits_in_a_row_are_a_phone_witness :
  exists m, phoneRegexMatch (lit "order " ++ lit "20250210113000" ++ lit " ok")
            = Some m
            /\ (10 <= length m <= 14)%nat
            /\ forall guests,
                 resolveBooking
                   (lit "order " ++ lit "20250210113000" ++ lit " ok") guests
                 <> Return NoPhoneMentioned.
Proof.
  apply (ten_digits_in_a_row_are_a_phone (lit "order ")
           (lit "20250210113000") (lit " ok")).
  - reflexivity.
  - vm_compute. lia.
Defined.

(** ** What a request does to the state *)

(** Answering leaves the state alone, or sends one completion request, and
    that only for a message without a phone. *)
Lemma answer_state (lower : jsstring -> jsstring) (w : World)
      (um : jsstring) (ED : EventData) (st : Server) :
  snd (answer lower w um ED st) = st
  \/ (phoneRegexMatch um = None
      /\ snd (answer lower w um ED st)
         = snd (logCompletion (completionRequest ED um) st)).
Proof.
  unfold answer. rewrite lookupGuest_pure. unfold pbind at 1, plift at 1.
  destruct (phoneRegexMatch um) as [raw|].
  - left. destruct (List.find _ (guests ED)) as [g|]; [|reflexivity].
    unfold pbind, plift, pret.
    destruct (findHotel lower (hotels ED) g); reflexivity.
  - right. split; [reflexivity|].
    unfold askModel, pbind, plift, pret, logCompletion.
    destruct (chatCompletion w _); reflexivity.
Qed.

(** Loading writes nothing to the console and sends nothing to the
    completion API. *)
Lemma getEventData_logs (parse : jsstring -> result (list Row)) (w : World)
      (st : Server) :
  consoleErrors (snd (getEventData parse w st)) = consoleErrors st
  /\ completions (snd (getEventData parse w st)) = completions st.
Proof.
  destruct (cacheIsFresh (dateNow w) (cachedEventData st, lastLoadedMs st))
    eqn:Hfresh.
  - unfold cacheIsFresh in Hfresh.
    destruct (cachedEventData st) as [d|] eqn:Hc; [|discriminate].
    apply Z.ltb_lt in Hfresh.
    rewrite (getEventData_fresh parse w st d Hc Hfresh). split; reflexivity.
  - rewrite (getEventData_stale parse w st Hfresh).
    pose proof (build_onlyFetches parse w st) as (_ & _ & Hce & Hco & _).
    destruct (buildEventDataFromSheets parse w st) as [[data|err] st1];
      simpl in *; split; assumption.
Qed.

(** The completion API never receives a phone message nor the guest
    roster: a request either sends nothing to it, or sends one request,
    built from the snapshot in the cache and from a truncated message in
    which the phone pattern has no match; and the request built from a
    snapshot is the same whatever guest list the snapshot holds. *)
Theorem no_phone_message_reaches_the_model
        (lower : jsstring -> jsstring)
        (parse : jsstring -> result (list Row)) (w : World) (message : jsval)
        (st : Server) :
  let userMessage := take 500 (messageString message) in
  let st' := snd (chat lower parse w message st) in
  completions st' = completions st
  \/ exists ED,
       cachedEventData st' = Some ED
       /\ phoneRegexMatch userMessage = None
       /\ completions st' = completionRequest ED userMessage :: completions st
       /\ forall gs, completionRequest (withGuests gs ED) userMessage
                     = completionRequest ED userMessage.
Proof.
  cbv zeta. rewrite chat_stages.
  pose proof (getEventData_logs parse w st) as [_ Hco].
  destruct (getEventData parse w st) as [[ED|err] st1] eqn:Hget;
    simpl in Hco; [|left; exact Hco].
  assert (Hcache : cachedEventData st1 = Some ED).
  { destruct (cacheIsFresh (dateNow w) (cachedEventData st, lastLoadedMs st))
      eqn:Hfresh.
    - unfold cacheIsFresh in Hfresh.
      destruct (cachedEventData st) as [d|] eqn:Hc; [|discriminate].
      apply Z.ltb_lt in Hfresh.
      rewrite (getEventData_fresh parse w st d Hc Hfresh) in Hget.
      congruence.
    - rewrite (getEventData_stale parse w st Hfresh) in Hget.
      destruct (buildEventDataFromSheets parse w st) as [[data|err] st2];
        [|discriminate].
      injection Hget as <- <-. reflexivity. }
  destruct (answer_state lower w (take 500 (messageString message)) ED st1)
    as [Hsame | [Hnone Hsent]];
    destruct (answer lower w _ ED st1) as [[r|err] st2]; simpl in *; subst st2.
  - left. exact Hco.
  - left. exact Hco.
  - right. exists ED. simpl. rewrite Hco. auto.
  - right. exists ED. simpl. rewrite Hco. auto.
Qed.

(** ** Responses *)

Lemma bookingReply_not_empty (g : Guest.t) (hotel : option Hotel.t) :
  bookingReply g hotel <> [].
Proof.
  rewrite bookingReply_shown. unfold bookingShown.
  change (lit "<strong>Booking Found for ")
    with (60 :: lit "strong>Booking Found for ").
  discriminate.
Qed.

Lemma model_reply_not_empty (content : jsval) :
  templ (jsOr (optTrim content) (JString modelFallback)) <> [].
Proof.
  destruct content as [| |s]; try (vm_compute; discriminate).
  unfold optTrim, jsOr, truthy.
  destruct (trim s) as [|c t]; [vm_compute|]; discriminate.
Qed.

Lemma answer_reply_not_empty (lower : jsstring -> jsstring) (w : World)
      (um : jsstring) (ED : EventData) (st st' : Server) (r : Response) :
  answer lower w um ED st = (Return r, st') -> reply r <> [].
Proof.
  unfold answer. rewrite lookupGuest_pure. unfold pbind at 1, plift at 1.
  destruct (phoneRegexMatch um) as [raw|].
  - destruct (List.find _ (guests ED)) as [g|].
    + unfold pbind, plift, pret.
      destruct (findHotel lower (hotels ED) g); intros [= <- _].
      apply bookingReply_not_empty.
    + intros [= <- _]. vm_compute. discriminate.
  - unfold askModel, pbind, plift, logCompletion, pret.
    destruct (chatCompletion w _); intros [= <- _].
    apply model_reply_not_empty.
Qed.

(** Every response carries a reply that is not empty, whatever the
    request, the sheets and the completion API do: an empty or blank
    completion is replaced by the fallback sentence. *)
Theorem reply_is_never_empty
        (lower : jsstring -> jsstring)
        (parse : jsstring -> result (list Row)) (w : World) (message : jsval)
        (st : Server) :
  reply (fst (chat lower parse w message st)) <> []
  /\ (forall request content,
        chatCompletion w request = Return content ->
        trim (messageString content) = [] ->
        fst (askModel w request st) = Return (okResponse modelFallback)).
Proof.
  split.
  - rewrite chat_stages.
    destruct (getEventData parse w st) as [[ED|err] st1];
      [|vm_compute; discriminate].
    destruct (answer lower w _ ED st1) as [[r|err] st2] eqn:Ha;
      [|vm_compute; discriminate].
    apply (answer_reply_not_empty _ _ _ _ _ _ _ Ha).
  - intros request content Hc Hblank.
    unfold askModel, pbind, plift, logCompletion, pret. rewrite Hc.
    destruct content as [| |s]; try reflexivity.
    simpl in Hblank. unfold optTrim, jsOr, truthy. rewrite Hblank.
    reflexivity.
Qed.

Lemma reply_is_never_empty_witness :
  fst (askModel
         {| dateNow := 0%Z; processEnv := processEnv sheetWorld;
            fetch := sheetFetch;
            chatCompletion := fun _ => Return (JString (lit "  " ++ [newline])) |}
         (completionRequest emptySnapshot (lit "hello")) initialServer)
  = Return (okResponse modelFallback).
Proof.
  apply (proj2 (reply_is_never_empty (fun s => s) sheetParse _ JNull
                  initialServer)
           _ (JString (lit "  " ++ [newline]))).
  - reflexivity.
  - reflexivity.
Defined.

(** A request is answered with status 200 and nothing written to the
    console, or with status 500 and exactly one error written to it: no
    failure goes unlogged, no success is logged as an error. *)
Theorem every_failure_is_logged_once
        (lower : jsstring -> jsstring)
        (parse : jsstring -> result (list Row)) (w : World) (message : jsval)
        (st : Server) :
  let r := fst (chat lower parse w message st) in
  let st' := snd (chat lower parse w message st) in
  (statusCode r = 200 /\ consoleErrors st' = consoleErrors st)
  \/ (r = errorResponse
      /\ exists err, consoleErrors st' = err :: consoleErrors st).
Proof.
  cbv zeta. rewrite chat_stages.
  pose proof (getEventData_logs parse w st) as [Hce _].
  destruct (getEventData parse w st) as [[ED|err] st1]; simpl in Hce.
  - pose proof (answer_state lower w (take 500 (messageString message)) ED st1)
      as Hst.
    destruct (answer lower w _ ED st1) as [[r|err] st2] eqn:Ha; simpl in *.
    + left. split; [apply (answer_status _ _ _ _ _ _ _ Ha)|].
      destruct Hst as [-> | [_ ->]]; exact Hce.
    + right. split; [reflexivity|]. exists err.
      destruct Hst as [-> | [_ ->]]; simpl; rewrite Hce; reflexivity.
  - right. split; [reflexivity|]. exists err. simpl. rewrite Hce.
    reflexivity.
Qed.

(** A request that finds a fresh cache fetches nothing and leaves the cache
    and its time stamp as they are; it is answered from the cached
    snapshot. *)
Theorem fresh_cache_request_fetches_nothing
        (lower : jsstring -> jsstring)
        (parse : jsstring -> result (list Row)) (w : World) (message : jsval)
        (st : Server) (d : EventData) :
  cachedEventData st = Some d ->
  (dateNow w - lastLoadedMs st < CACHE_TTL_MS)%Z ->
  let st' := snd (chat lower parse w message st) in
  fetched st' = fetched st
  /\ cachedEventData st' = Some d
  /\ lastLoadedMs st' = lastLoadedMs st
  /\ fst (chat lower parse w message st)
     = match fst (answer lower w (take 500 (messageString message)) d st) with
       | Return r => r
       | Throw _ => errorResponse
       end.
Proof.
  intros Hc Hfresh. cbv zeta.
  rewrite chat_stages, (getEventData_fresh parse w st d Hc Hfresh).
  pose proof (answer_state lower w (take 500 (messageString message)) d st)
    as Hst.
  destruct (answer lower w _ d st) as [[r|err] st2]; simpl in *;
    destruct Hst as [-> | [_ ->]]; simpl; auto.
Qed.

Lemma fresh_cache_request_fetches_nothing_witness :
  fetched (snd (chat (fun s => s) sheetParse
                  (offlineWorldAt 1700000299999) (JString callMessage)
                  loadedServer))
  = fetched loadedServer.
Proof.
  apply (fresh_cache_request_fetches_nothing (fun s => s) sheetParse
           (offlineWorldAt 1700000299999) (JString callMessage)
           loadedServer loadedSnapshot eq_refl).
  vm_compute. reflexivity.
Defined.

(** ** More on the cache *)

Lemma returned_snapshot_cached (parse : jsstring -> result (list Row))
      (w : World) (st st1 : Server) (d : EventData) :
  getEventData parse w st = (Return d, st1) ->
  cachedEventData st1 = Some d
  /\ (dateNow w - lastLoadedMs st1 < CACHE_TTL_MS)%Z.
Proof.
  intros Hget.
  destruct (cacheIsFresh (dateNow w) (cachedEventData st, lastLoadedMs st))
    eqn:Hfresh.
  - unfold cacheIsFresh in Hfresh.
    destruct (cachedEventData st) as [d'|] eqn:Hc; [|discriminate].
    apply Z.ltb_lt in Hfresh.
    rewrite (getEventData_fresh parse w st d' Hc Hfresh) in Hget.
    injection Hget as <- <-. auto.
  - rewrite (getEventData_stale parse w st Hfresh) in Hget.
    destruct (buildEventDataFromSheets parse w st) as [[data|err] st2];
      [|discriminate].
    injection Hget as <- <-. simpl. split; [reflexivity|].
    rewrite Z.sub_diag. reflexivity.
Qed.

(** What [getEventData] returns is what the cache holds afterwards, and it
    is younger than the window at the time of the call: a snapshot older
    than five minutes is never handed out. *)
Theorem returned_snapshot_is_cached_and_fresh
        (parse : jsstring -> result (list Row)) (w : World)
        (st st1 : Server) (d : EventData) :
  getEventData parse w st = (Return d, st1) ->
  cachedEventData st1 = Some d
  /\ (dateNow w - lastLoadedMs st1 < CACHE_TTL_MS)%Z
  /\ forall w', (dateNow w' - lastLoadedMs st1 < CACHE_TTL_MS)%Z ->
                getEventData parse w' st1 = (Return d, st1).
Proof.
  intros Hget.
  assert (H : cachedEventData st1 = Some d
              /\ (dateNow w - lastLoadedMs st1 < CACHE_TTL_MS)%Z).
  { destruct (cacheIsFresh (dateNow w) (cachedEventData st, lastLoadedMs st))
      eqn:Hfresh.
    - unfold cacheIsFresh in Hfresh.
      destruct (cachedEventData st) as [d'|] eqn:Hc; [|discriminate].
      apply Z.ltb_lt in Hfresh.
      rewrite (getEventData_fresh parse w st d' Hc Hfresh) in Hget.
      injection Hget as <- <-. auto.
    - rewrite (getEventData_stale parse w st Hfresh) in Hget.
      destruct (buildEventDataFromSheets parse w st) as [[data|err] st2];
        [|discriminate].
      injection Hget as <- <-. simpl. split; [reflexivity|].
      rewrite Z.sub_diag. reflexivity. }
  destruct H as [Hc Hage]. repeat split; auto.
  intros w' Hw'. apply (getEventData_fresh parse w' st1 d Hc Hw').
Qed.

Lemma returned_snapshot_is_cached_and_fresh_witness :
  cachedEventData loadedServer = Some loadedSnapshot
  /\ (dateNow sheetWorld - lastLoadedMs loadedServer < CACHE_TTL_MS)%Z
  /\ forall w', (dateNow w' - lastLoadedMs loadedServer < CACHE_TTL_MS)%Z ->
                getEventData sheetParse w' loadedServer
                = (Return loadedSnapshot, loadedServer).
Proof.
  apply (returned_snapshot_is_cached_and_fresh sheetParse sheetWorld
           initialServer loadedServer loadedSnapshot).
  reflexivity.
Defined.

(** A load that fails is not remembered: the cache and its time stamp are
    as before the call, which found no fresh cache, and every later call
    (the clock not going back) finds none either, so it tries the rebuild
    again. *)
Theorem failed_load_is_tried_again
        (parse : jsstring -> result (list Row)) (w : World)
        (st st1 : Server) (err : exn) :
  getEventData parse w st = (Throw err, st1) ->
  cachedEventData st1 = cachedEventData st
  /\ lastLoadedMs st1 = lastLoadedMs st
  /\ cacheIsFresh (dateNow w) (cachedEventData st, lastLoadedMs st) = false
  /\ forall w', (dateNow w <= dateNow w')%Z ->
       cacheIsFresh (dateNow w') (cachedEventData st1, lastLoadedMs st1)
       = false
       /\ getEventData parse w' st1
          = match buildEventDataFromSheets parse w' st1 with
            | (Return data, st2) =>
                (Return data,
                 {| cachedEventData := Some data; lastLoadedMs := dateNow w';
                    fetched := fetched st2; consoleErrors := consoleErrors st2;
                    completions := completions st2 |})
            | (Throw err', st2) => (Throw err', st2)
            end.
Proof.
  intros Hget.
  destruct (cacheIsFresh (dateNow w) (cachedEventData st, lastLoadedMs st))
    eqn:Hfresh.
  { unfold cacheIsFresh in Hfresh.
    destruct (cachedEventData st) as [d'|] eqn:Hc; [|discriminate].
    apply Z.ltb_lt in Hfresh.
    rewrite (getEventData_fresh parse w st d' Hc Hfresh) in Hget.
    discriminate. }
  rewrite (getEventData_stale parse w st Hfresh) in Hget.
  pose proof (build_onlyFetches parse w st) as (Hc & Hl & _).
  destruct (buildEventDataFromSheets parse w st) as [[data|err'] st2];
    [discriminate|].
  injection Hget as _ <-. simpl in Hc, Hl.
  split; [exact Hc|]. split; [exact Hl|]. split; [reflexivity|].
  intros w' Hlater.
  assert (Hstale : cacheIsFresh (dateNow w')
                     (cachedEventData st2, lastLoadedMs st2) = false).
  { rewrite Hc, Hl. unfold cacheIsFresh in *.
    destruct (cachedEventData st); [|reflexivity].
    apply Z.ltb_ge. apply Z.ltb_ge in Hfresh. lia. }
  split; [exact Hstale|]. apply (getEventData_stale parse w' st2 Hstale).
Qed.

Lemma failed_load_is_tried_again_witness :
  cacheIsFresh 5%Z
    (cachedEventData initialServer, lastLoadedMs initialServer) = false
  /\ getEventData sheetParse sheetWorld
       (snd (getEventData sheetParse (offlineWorldAt 5) initialServer))
     = (Return loadedSnapshot, loadedServer).
Proof.
  destruct (failed_load_is_tried_again sheetParse (offlineWorldAt 5)
              initialServer initialServer (Error configErrorMessage) eq_refl)
    as (_ & _ & Hstale & Hagain).
  split; [exact Hstale|].
  destruct (Hagain sheetWorld) as [_ Hget]; [vm_compute; discriminate|].
  exact Hget.
Defined.

(** ** More on the loader *)

Lemma untilFailure_all (loads : jsstring -> bool) (l : list jsstring) :
  forallb loads l = true -> untilFailure loads l = l.
Proof.
  induction l as [|u l IH]; simpl; [reflexivity|].
  rewrite andb_true_iff. intros [-> Hl]. rewrite IH; auto.
Qed.

Lemma untilFailure_app (loads : jsstring -> bool) (l1 l2 : list jsstring) :
  untilFailure loads (l1 ++ l2)
  = if forallb loads l1 then l1 ++ untilFailure loads l2
    else untilFailure loads l1.
Proof.
  induction l1 as [|u l1 IH]; simpl; [reflexivity|].
  destruct (loads u); simpl; [|reflexivity].
  rewrite IH. destruct (forallb loads l1); reflexivity.
Qed.

Lemma fetchesUntilFailure_pret {A} (loads : jsstring -> bool) (a : A) :
  fetchesUntilFailure loads (pret a) [].
Proof.
  intros st. split; [reflexivity|]. split; [reflexivity|].
  intros _. exists a. reflexivity.
Qed.

Lemma fetchesUntilFailure_loadCsv (parse : jsstring -> result (list Row))
      (w : World) (url : jsstring) :
  fetchesUntilFailure (sheetLoads parse w) (loadCsv parse w url) [url].
Proof.
  intros st. unfold loadCsv, pbind, logFetch, plift, pthrow, sheetLoads.
  simpl. destruct (fetch w url) as [res|err]; simpl.
  - destruct (ok res); simpl.
    + destruct (parse (text res)) as [rows|err]; simpl.
      * split; [reflexivity|]. split; [reflexivity|]. intros _. eexists.
        reflexivity.
      * split; [reflexivity|]. split; [intros [a Ha] |]; discriminate.
    + split; [reflexivity|]. split; [intros [a Ha] |]; discriminate.
  - split; [reflexivity|]. split; [intros [a Ha] |]; discriminate.
Qed.

Lemma fetchesUntilFailure_pbind {A B} (loads : jsstring -> bool)
      (m : proc A) (k : A -> proc B) (l1 l2 : list jsstring) :
  fetchesUntilFailure loads m l1 ->
  (forall a, fetchesUntilFailure loads (k a) l2) ->
  fetchesUntilFailure loads (pbind m k) (l1 ++ l2).
Proof.
  intros Hm Hk st. unfold pbind. rewrite untilFailure_app, forallb_app.
  destruct (Hm st) as [Hf1 Hok1].
  destruct (m st) as [[a|err] st1]; simpl in *.
  - assert (Hall : forallb loads l1 = true)
      by (apply Hok1; exists a; reflexivity).
    rewrite Hall. rewrite (untilFailure_all loads l1 Hall) in Hf1.
    destruct (Hk a st1) as [Hf2 Hok2].
    split; [|exact Hok2].
    rewrite Hf2, Hf1, rev_app_distr, <- app_assoc. reflexivity.
  - assert (Hnot : forallb loads l1 = false).
    { destruct (forallb loads l1); [|reflexivity].
      destruct (proj2 Hok1 eq_refl) as [a Ha]. discriminate. }
    rewrite Hnot. split; [exact Hf1|].
    split; [intros [a Ha] |]; discriminate.
Qed.

Lemma fetchesUntilFailure_optional (parse : jsstring -> result (list Row))
      (w : World) (url : jsval) :
  fetchesUntilFailure (sheetLoads parse w)
    (if truthy url then loadCsv parse w (templ url) else pret [])
    (if truthy url then [templ url] else []).
Proof.
  destruct (truthy url);
    [apply fetchesUntilFailure_loadCsv | apply fetchesUntilFailure_pret].
Qed.

(** A rebuild fetches the meta sheet, the events sheet, the hotels sheet
    if configured and the guests sheet if configured, in this order, one
    after the other and nothing else.  It stops at the first sheet that
    does not load (fetch failed, status not ok, or text that does not
    parse): the sheets after that one are never asked for; and it returns
    exactly when every sheet loads.  When a required location is missing
    it asks for nothing and does not return. *)
Theorem rebuild_fetches_sheets_in_order
        (parse : jsstring -> result (list Row)) (w : World) (st : Server) :
  (truthy (META_CSV_URL (processEnv w)) = false
   \/ truthy (EVENTS_CSV_URL (processEnv w)) = false ->
   fetched (snd (buildEventDataFromSheets parse w st)) = fetched st
   /\ ~ succeeded (fst (buildEventDataFromSheets parse w st)))
  /\ (truthy (META_CSV_URL (processEnv w)) = true ->
      truthy (EVENTS_CSV_URL (processEnv w)) = true ->
      fetched (snd (buildEventDataFromSheets parse w st))
      = rev (untilFailure (sheetLoads parse w) (requestedUrls (processEnv w)))
        ++ fetched st
      /\ (succeeded (fst (buildEventDataFromSheets parse w st)) <->
          forallb (sheetLoads parse w) (requestedUrls (processEnv w)) = true)).
Proof.
  split.
  - intros Hunset. rewrite (build_unconfigured parse w st Hunset).
    split; [reflexivity|]. intros [a Ha]. discriminate.
  - intros Hmeta Hevents.
    assert (H : fetchesUntilFailure (sheetLoads parse w)
                  (buildEventDataFromSheets parse w)
                  (requestedUrls (processEnv w))).
    { unfold buildEventDataFromSheets, requestedUrls. cbv zeta.
      rewrite Hmeta, Hevents. cbn [negb orb].
      apply (fetchesUntilFailure_pbind _ _ _ [_] (_ :: _));
        [apply fetchesUntilFailure_loadCsv | intros metaRows].
      apply (fetchesUntilFailure_pbind _ _ _ [_] _);
        [apply fetchesUntilFailure_loadCsv | intros eventRows].
      apply fetchesUntilFailure_pbind;
        [apply fetchesUntilFailure_optional | intros hotelsRows].
      rewrite <- (app_nil_r (if truthy (GUESTS_CSV_URL _) then _ else _)).
      apply fetchesUntilFailure_pbind;
        [apply fetchesUntilFailure_optional | intros guestsRows].
      apply fetchesUntilFailure_pret. }
    apply (H st).
Qed.

Lemma rebuild_fetches_sheets_in_order_witness :
  fetched (snd (buildEventDataFromSheets sheetParse eventsDownWorld
                  initialServer))
  = [lit "https://sheets.example/events.csv";
     lit "https://sheets.example/meta.csv"]
  /\ fetched (snd (buildEventDataFromSheets sheetParse sheetWorld
                     initialServer))
     = rev (requestedUrls (processEnv sheetWorld)).
Proof.
  split.
  - destruct (proj2 (rebuild_fetches_sheets_in_order sheetParse
                       eventsDownWorld initialServer) eq_refl eq_refl)
      as [Hf _].
    rewrite Hf. reflexivity.
  - destruct (proj2 (rebuild_fetches_sheets_in_order sheetParse sheetWorld
                       initialServer) eq_refl eq_refl) as [Hf _].
    rewrite Hf. reflexivity.
Defined.

(** A sheet that answers with a status that is not ok stops the load with
    an error that names the URL and the status; for the meta sheet no
    other sheet is asked for.  The request that needed the load gets the
    generic status 500, and the error message goes to the console only. *)
Theorem failed_sheet_fetch_stops_the_load
        (lower : jsstring -> jsstring)
        (parse : jsstring -> result (list Row)) (w : World) (message : jsval)
        (st : Server) (res : HttpResponse) :
  let url := templ (META_CSV_URL (processEnv w)) in
  let err := Error (lit "Failed to fetch CSV from " ++ url ++ lit ": "
                    ++ decimal (status res)) in
  truthy (META_CSV_URL (processEnv w)) = true ->
  truthy (EVENTS_CSV_URL (processEnv w)) = true ->
  fetch w url = Return res ->
  ok res = false ->
  loadCsv parse w url st = (Throw err, snd (logFetch url st))
  /\ buildEventDataFromSheets parse w st = (Throw err, snd (logFetch url st))
  /\ (cacheIsFresh (dateNow w) (cachedEventData st, lastLoadedMs st) = false ->
      chat lower parse w message st
      = ({| statusCode := 500; reply := genericApology |},
         {| cachedEventData := cachedEventData st;
            lastLoadedMs := lastLoadedMs st;
            fetched := url :: fetched st;
            consoleErrors := err :: consoleErrors st;
            completions := completions st |})).
Proof.
  cbv zeta. intros Hmeta Hevents Hfetch Hok.
  assert (Hload : loadCsv parse w (templ (META_CSV_URL (processEnv w))) st
                  = (Throw (Error (lit "Failed to fetch CSV from "
                                   ++ templ (META_CSV_URL (processEnv w))
                                   ++ lit ": " ++ decimal (status res))),
                     snd (logFetch (templ (META_CSV_URL (processEnv w))) st))).
  { unfold loadCsv, pbind, plift, pthrow. simpl. rewrite Hfetch, Hok.
    reflexivity. }
  assert (Hbuild : buildEventDataFromSheets parse w st
                   = (Throw (Error (lit "Failed to fetch CSV from "
                                    ++ templ (META_CSV_URL (processEnv w))
                                    ++ lit ": " ++ decimal (status res))),
                      snd (logFetch (templ (META_CSV_URL (processEnv w))) st))).
  { unfold buildEventDataFromSheets. cbv zeta. rewrite Hmeta, Hevents.
    cbn [negb orb]. unfold pbind at 1. rewrite Hload. reflexivity. }
  split; [exact Hload|]. split; [exact Hbuild|].
  intros Hstale.
  rewrite chat_stages, (getEventData_stale parse w st Hstale), Hbuild.
  reflexivity.
Qed.

Lemma failed_sheet_fetch_stops_the_load_witness :
  chat (fun s => s) sheetParse missingSheetsWorld (JString callMessage)
    initialServer
  = ({| statusCode := 500; reply := genericApology |},
     {| cachedEventData := None; lastLoadedMs := 0%Z;
        fetched := [lit "https://sheets.example/meta.csv"];
        consoleErrors :=
          [Error (lit "Failed to fetch CSV from https://sheets.example/meta.csv: 404")];
        completions := [] |}).
Proof.
  apply (proj2 (proj2 (failed_sheet_fetch_stops_the_load (fun s => s)
           sheetParse missingSheetsWorld (JString callMessage) initialServer
           {| ok := false; status := 404; text := [] |}
           eq_refl eq_refl eq_refl eq_refl)) eq_refl).
Defined.

(** What a rebuild returns is assembled from the rows of the sheets, with
    no rows for an optional sheet that is not configured. *)
Lemma build_returns_assembled (parse : jsstring -> result (list Row))
      (w : World) (st st1 : Server) (data : EventData) :
  buildEventDataFromSheets parse w st = (Return data, st1) ->
  exists metaRows eventRows hotelsRows guestsRows,
    data = assemble metaRows eventRows hotelsRows guestsRows
    /\ (truthy (HOTELS_CSV_URL (processEnv w)) = false -> hotelsRows = [])
    /\ (truthy (GUESTS_CSV_URL (processEnv w)) = false -> guestsRows = []).
Proof.
  unfold buildEventDataFromSheets. cbv zeta.
  destruct (negb _ || negb _); [discriminate|].
  unfold pbind at 1.
  destruct (loadCsv parse w _ st) as [[metaRows|err] s1]; [|discriminate].
  unfold pbind at 1.
  destruct (loadCsv parse w _ s1) as [[eventRows|err] s2]; [|discriminate].
  unfold pbind at 1.
  destruct (truthy (HOTELS_CSV_URL (processEnv w))) eqn:Hh.
  - destruct (loadCsv parse w _ s2) as [[hotelsRows|err] s3]; [|discriminate].
    unfold pbind at 1.
    destruct (truthy (GUESTS_CSV_URL (processEnv w))) eqn:Hg.
    + destruct (loadCsv parse w _ s3) as [[guestsRows|err] s4];
        [|discriminate].
      intros [= <- _]. exists metaRows, eventRows, hotelsRows, guestsRows.
      repeat split; discriminate.
    + intros [= <- _]. exists metaRows, eventRows, hotelsRows, [].
      repeat split; discriminate.
  - unfold pret at 1. unfold pbind at 1.
    destruct (truthy (GUESTS_CSV_URL (processEnv w))) eqn:Hg.
    + destruct (loadCsv parse w _ s2) as [[guestsRows|err] s4];
        [|discriminate].
      intros [= <- _]. exists metaRows, eventRows, [], guestsRows.
      repeat split; discriminate.
    + intros [= <- _]. exists metaRows, eventRows, [], [].
      repeat split; discriminate.
Qed.

(** Without a guests sheet configured, a rebuilt snapshot has no guests
    (and no hotels without a hotels sheet), so a request that rebuilds it
    answers every phone message with the no-booking notice, unless the
    load itself fails. *)
Theorem unset_guests_sheet_means_no_booking
        (lower : jsstring -> jsstring)
        (parse : jsstring -> result (list Row)) (w : World) (message : jsval)
        (st : Server) (rawPhone : jsstring) :
  truthy (GUESTS_CSV_URL (processEnv w)) = false ->
  cacheIsFresh (dateNow w) (cachedEventData st, lastLoadedMs st) = false ->
  phoneRegexMatch (take 500 (messageString message)) = Some rawPhone ->
  match fst (buildEventDataFromSheets parse w st) with
  | Return data =>
      guests data = []
      /\ (truthy (HOTELS_CSV_URL (processEnv w)) = false -> hotels data = [])
      /\ fst (chat lower parse w message st)
         = {| statusCode := 200; reply := noBookingReply |}
  | Throw _ => fst (chat lower parse w message st) = errorResponse
  end.
Proof.
  intros Hguests Hstale Hphone.
  rewrite chat_stages, (getEventData_stale parse w st Hstale).
  destruct (buildEventDataFromSheets parse w st) as [[data|err] st1] eqn:Hb;
    [|reflexivity].
  destruct (build_returns_assembled parse w st st1 data Hb)
    as (mr & er & hr & gr & -> & Hh & Hg).
  rewrite (Hg Hguests). cbn [fst guests assemble List.map].
  split; [reflexivity|]. split.
  { intros Hhotels. rewrite (Hh Hhotels). reflexivity. }
  rewrite answer_NotFound; [reflexivity|].
  rewrite resolveBooking_pure, Hphone. reflexivity.
Qed.

Lemma unset_guests_sheet_means_no_booking_witness :
  fst (chat (fun s => s) sheetParse noGuestsWorld (JString callMessage)
         initialServer)
  = {| statusCode := 200; reply := noBookingReply |}.
Proof.
  pose proof (unset_guests_sheet_means_no_booking (fun s => s) sheetParse
                noGuestsWorld (JString callMessage) initialServer
                (lit "9876543210")) as H.
  vm_compute in H. vm_compute. apply H; reflexivity.
Defined.

(** ** The meta sheet *)

Lemma metaOfRows_snoc (rows : list Row) (row : Row) :
  metaOfRows (rows ++ [row]) =
  match prop row "field" with
  | JString f =>
      if isEmpty f then metaOfRows rows
      else <[f := jsNullish (prop row "value") (JString [])]> (metaOfRows rows)
  | _ => metaOfRows rows
  end.
Proof. unfold metaOfRows. rewrite fold_left_app. reflexivity. Qed.

Lemma metaKeys_not_empty (k : string) : In k metaKeys -> lit k <> [].
Proof.
  unfold metaKeys. simpl.
  intros H; repeat (destruct H as [<- | H]; [vm_compute; discriminate|]).
  contradiction.
Qed.

(** For each key the loader reads from [meta]: it is [undefined] when no
    row has been read; a row whose [field] is the key sets it to the row's
    [value] (the empty string when the row has none), replacing what
    earlier rows set; a row with another [field], or none, leaves it as it
    was.  So the last row of a field wins. *)
Theorem meta_last_row_wins (rows : list Row) (row : Row) (k : string) :
  In k metaKeys ->
  metaProp (metaOfRows []) k = JUndefined
  /\ (prop row "field" = JString (lit k) ->
      metaProp (metaOfRows (rows ++ [row])) k
      = jsNullish (prop row "value") (JString []))
  /\ (prop row "field" <> JString (lit k) ->
      metaProp (metaOfRows (rows ++ [row])) k = metaProp (metaOfRows rows) k).
Proof.
  intros Hk. pose proof (metaKeys_not_empty k Hk) as Hne.
  split; [|split].
  - unfold metaProp, metaOfRows. simpl. rewrite lookup_empty. reflexivity.
  - intros Hfield. rewrite metaOfRows_snoc, Hfield.
    destruct (lit k) as [|c s] eqn:E; [contradiction|]. cbn [isEmpty].
    unfold metaProp. rewrite E, lookup_insert_eq. reflexivity.
  - intros Hfield. rewrite metaOfRows_snoc.
    destruct (prop row "field") as [| |f]; try reflexivity.
    destruct f as [|c s]; [reflexivity|]. cbn [isEmpty].
    unfold metaProp. rewrite lookup_insert_ne; [reflexivity|].
    intros E. apply Hfield. rewrite E. reflexivity.
Qed.

Lemma meta_last_row_wins_witness :
  metaProp
    (metaOfRows
       ([list_to_map [(lit "field", lit "city"); (lit "value", lit "Jaipur")]]
          ++ [list_to_map [(lit "field", lit "city");
                           (lit "value", lit "Udaipur")]]))
    "city"
  = JString (lit "Udaipur").
Proof.
  apply (proj1 (proj2 (meta_last_row_wins
           [list_to_map [(lit "field", lit "city"); (lit "value", lit "Jaipur")]]
           (list_to_map [(lit "field", lit "city");
                         (lit "value", lit "Udaipur")])
           "city" ltac:(simpl; tauto)))).
  reflexivity.
Defined.

(** ** More on the hotel join *)

Lemma findHotel_passedOver (lower : jsstring -> jsstring)
      (before rest : list Hotel.t) (g : Guest.t) :
  Forall (passedOver lower g) before ->
  findHotel lower (before ++ rest) g = findHotel lower rest g.
Proof.
  induction 1 as [|h before [Hname Hno] _ IH]; [reflexivity|].
  unfold findHotel in *. simpl.
  rewrite (hotelMatches_named lower g h Hname), Hno. exact IH.
Qed.

Lemma findHotel_match (lower : jsstring -> jsstring) (h : Hotel.t)
      (after : list Hotel.t) (g : Guest.t) :
  hasName h -> hotelMatchesb lower g h = true ->
  findHotel lower (h :: after) g = Return (Some h).
Proof.
  intros Hname Hyes. unfold findHotel. simpl.
  rewrite (hotelMatches_named lower g h Hname), Hyes. reflexivity.
Qed.

Lemma hasName_dec (h : Hotel.t) : hasName h \/ ~ hasName h.
Proof.
  unfold hasName. destruct (Hotel.name h) as [| |s]; [right | right | left].
  - intros [s Hs]. discriminate.
  - intros [s Hs]. discriminate.
  - exists s. reflexivity.
Qed.

(** The join runs through the hotels in order until one has no name or
    joins. *)
Lemma findHotel_cases (lower : jsstring -> jsstring) (hotels : list Hotel.t)
      (g : Guest.t) :
  (Forall (passedOver lower g) hotels
   /\ findHotel lower hotels g = Return None)
  \/ exists before h after,
       hotels = before ++ h :: after
       /\ Forall (passedOver lower g) before
       /\ ((hasName h /\ hotelMatchesb lower g h = true
            /\ findHotel lower hotels g = Return (Some h))
           \/ (~ hasName h /\ findHotel lower hotels g = Throw TypeError)).
Proof.
  induction hotels as [|h hotels IH]; [left; split; [constructor | reflexivity]|].
  destruct (hasName_dec h) as [Hname | Hnameless].
  - destruct (hotelMatchesb lower g h) eqn:Hm.
    + right. exists [], h, hotels. repeat split; auto.
      left. auto using findHotel_match.
    + assert (Hskip : passedOver lower g h) by (split; assumption).
      assert (Hstep : findHotel lower (h :: hotels) g
                      = findHotel lower hotels g).
      { apply (findHotel_passedOver lower [h] hotels g).
        constructor; [exact Hskip | constructor]. }
      destruct IH as [[Hall Hnone] | (before & h' & after & -> & Hb & Hcase)].
      * left. split; [constructor; assumption | congruence].
      * right. exists (h :: before), h', after.
        split; [reflexivity|]. split; [constructor; assumption|].
        rewrite Hstep. exact Hcase.
  - right. exists [], h, hotels. repeat split; auto.
    right. auto using findHotel_nameless.
Qed.

(** The three outcomes of the hotel join, each with the rosters that give
    it.  It returns a hotel exactly when that hotel is the first whose name
    equals the guest's [hotelName] up to case and every hotel before it has
    a name; it returns none exactly when every hotel has a name and none
    joins; it throws, and then a [TypeError], exactly when a hotel without
    a name comes before any hotel that joins. *)
Theorem hotel_join_outcomes
        (lower : jsstring -> jsstring) (hotels : list Hotel.t) (g : Guest.t) :
  (forall h,
      findHotel lower hotels g = Return (Some h) <->
      exists before after,
        hotels = before ++ h :: after
        /\ Forall (passedOver lower g) before
        /\ hasName h /\ hotelMatchesb lower g h = true)
  /\ (findHotel lower hotels g = Return None <->
      Forall (passedOver lower g) hotels)
  /\ (forall err,
        findHotel lower hotels g = Throw err <->
        err = TypeError
        /\ exists before h after,
             hotels = before ++ h :: after
             /\ Forall (passedOver lower g) before
             /\ ~ hasName h).
Proof.
  split; [|split].
  - intros h. split.
    + intros Hfind.
      destruct (findHotel_cases lower hotels g)
        as [[_ Hnone] | (before & h' & after & Hh & Hb & [(Hn & Hm & Hs) | [_ Ht]])];
        try congruence.
      rewrite Hs in Hfind. injection Hfind as ->.
      exists before, after. auto.
    + intros (before & after & -> & Hb & Hn & Hm).
      rewrite (findHotel_passedOver lower before _ g Hb).
      apply findHotel_match; assumption.
  - split.
    + intros Hfind.
      destruct (findHotel_cases lower hotels g)
        as [[Hall _] | (before & h' & after & Hh & Hb & [(Hn & Hm & Hs) | [_ Ht]])];
        [exact Hall | congruence | congruence].
    + intros Hall.
      rewrite <- (app_nil_r hotels), (findHotel_passedOver lower hotels [] g Hall).
      reflexivity.
  - intros err. split.
    + intros Hfind.
      destruct (findHotel_cases lower hotels g)
        as [[_ Hnone] | (before & h' & after & Hh & Hb & [(Hn & Hm & Hs) | [Hn Ht]])];
        try congruence.
      rewrite Ht in Hfind. injection Hfind as <-.
      split; [reflexivity|]. exists before, h', after. auto.
    + intros (-> & before & h & after & -> & Hb & Hn).
      rewrite (findHotel_passedOver lower before _ g Hb).
      apply findHotel_nameless, Hn.
Qed.

(** ** The page script *)

Lemma filter_other_nodes (n : Client.Node) (l : list Client.Node) :
  Forall (fun m => Client.nodeId m <> Client.nodeId n) l ->
  List.filter (fun m => negb (Client.isNode n m)) l = l.
Proof.
  induction 1 as [|m l Hm _ IH]; [reflexivity|]. simpl.
  unfold Client.isNode at 1. apply Nat.eqb_neq in Hm. rewrite Hm. simpl.
  rewrite IH. reflexivity.
Qed.

Lemma existsb_other_nodes (n : Client.Node) (l : list Client.Node) :
  Forall (fun m => Client.nodeId m <> Client.nodeId n) l ->
  existsb (Client.isNode n) l = false.
Proof.
  induction 1 as [|m l Hm _ IH]; [reflexivity|]. simpl.
  unfold Client.isNode at 1. apply Nat.eqb_neq in Hm. rewrite Hm, IH.
  reflexivity.
Qed.

Lemma other_nodes (n : Client.Node) (l1 l2 : list Client.Node) :
  NoDup (List.map Client.nodeId (l1 ++ n :: l2)) ->
  Forall (fun m => Client.nodeId m <> Client.nodeId n) (l1 ++ l2).
Proof.
  intros Hnd. rewrite List.map_app in Hnd. simpl in Hnd.
  apply NoDup_app in Hnd as (Hnd1 & Hdisj & Hnd2).
  apply NoDup_cons in Hnd2 as [Hn2 _].
  apply Forall_app. split; apply Forall_forall; intros m Hm E.
  - apply (Hdisj (Client.nodeId m)).
    + apply list_elem_of_fmap. exists m. auto.
    + rewrite E. left.
  - apply Hn2. rewrite <- E. apply list_elem_of_fmap. exists m. auto.
Qed.

(** Removing a node that is a child: the other children stay, in order. *)
Lemma removeChild_present (n : Client.Node) (l1 l2 : list Client.Node)
      (pg : Client.Page) :
  Client.children pg = l1 ++ n :: l2 ->
  NoDup (List.map Client.nodeId (Client.children pg)) ->
  Client.removeChild (Some n) pg =
  Return {| Client.children := l1 ++ l2;
            Client.inputValue := Client.inputValue pg;
            Client.created := Client.created pg;
            Client.posted := Client.posted pg;
            Client.consoleErrors := Client.consoleErrors pg |}.
Proof.
  intros Hch Hnd. unfold Client.removeChild. rewrite Hch in *.
  apply other_nodes, Forall_app in Hnd as [H1 H2].
  rewrite existsb_app. simpl. unfold Client.isNode at 2.
  rewrite Nat.eqb_refl, orb_true_r.
  rewrite List.filter_app. simpl. unfold Client.isNode at 2.
  rewrite Nat.eqb_refl. simpl.
  rewrite (filter_other_nodes n l1 H1), (filter_other_nodes n l2 H2).
  reflexivity.
Qed.

(** Removing a node that is not a child throws. *)
Lemma removeChild_absent (n : Client.Node) (pg : Client.Page) :
  Forall (fun m => Client.nodeId m <> Client.nodeId n) (Client.children pg) ->
  Client.removeChild (Some n) pg = Throw Client.notFoundError.
Proof.
  intros H. unfold Client.removeChild.
  rewrite (existsb_other_nodes n _ H). reflexivity.
Qed.

Lemma templ_reply_shown (v : jsval) :
  templ (jsOr v (JString Client.noReplyText)) = fallback v Client.noReplyText.
Proof. apply templ_jsOr. vm_compute. discriminate. Qed.

Lemma submitFinish_present (typing : Client.Node)
      (outcome : result Client.Json) (pg : Client.Page)
      (l1 l2 : list Client.Node) :
  Client.children pg = l1 ++ typing :: l2 ->
  NoDup (List.map Client.nodeId (Client.children pg)) ->
  Client.submitFinish (Some typing) outcome pg =
  (Client.ending outcome,
   {| Client.children :=
        (l1 ++ l2) ++ Client.botNodes (Client.created pg) outcome;
      Client.inputValue := Client.inputValue pg;
      Client.created :=
        (Client.created pg
         + length (Client.botNodes (Client.created pg) outcome))%nat;
      Client.posted := Client.posted pg;
      Client.consoleErrors :=
        Client.logged outcome ++ Client.consoleErrors pg |}).
Proof.
  intros Hch Hnd. unfold Client.submitFinish, Client.submitTry.
  destruct outcome as [[|v]|err].
  - rewrite (removeChild_present typing l1 l2 pg Hch Hnd).
    cbn [Client.readReply]. unfold Client.submitCatch. cbv zeta.
    rewrite removeChild_absent.
    + cbn [Client.botNodes Client.logged Client.ending length app
           Client.consoleError Client.children Client.inputValue
           Client.created Client.posted Client.consoleErrors].
      rewrite app_nil_r, Nat.add_0_r. reflexivity.
    + cbn [Client.consoleError Client.children].
      apply other_nodes. rewrite <- Hch. exact Hnd.
  - rewrite (removeChild_present typing l1 l2 pg Hch Hnd).
    cbn [Client.readReply]. rewrite templ_reply_shown.
    unfold Client.addMessage, Client.message.
    cbn [Client.botNodes Client.logged Client.ending length app
         Client.children Client.inputValue Client.created Client.posted
         Client.consoleErrors].
    rewrite Nat.add_1_r. reflexivity.
  - unfold Client.submitCatch. cbv zeta.
    rewrite (removeChild_present typing l1 l2 (Client.consoleError err pg));
      [|exact Hch | exact Hnd].
    unfold Client.addMessage, Client.message.
    cbn [Client.botNodes Client.logged Client.ending length app
         Client.consoleError Client.children Client.inputValue
         Client.created Client.posted Client.consoleErrors].
    rewrite Nat.add_1_r. reflexivity.
Qed.

(** A blank input (empty, or white space only) is ignored: no message is
    shown, nothing is sent, and the input is left as it is. *)
Theorem blank_input_is_ignored
        (server : jsstring -> result Client.Json) (pg : Client.Page) :
  trim (Client.inputValue pg) = [] ->
  Client.submitStart pg = (pg, None)
  /\ Client.submit server pg = (Return tt, pg).
Proof.
  intros Hblank. unfold Client.submit, Client.submitStart. rewrite Hblank.
  split; reflexivity.
Qed.

Lemma blank_input_is_ignored_witness :
  Client.submit (fun _ => Throw TypeError)
    (Client.setInput (lit "   ") Client.initialPage)
  = (Return tt, Client.setInput (lit "   ") Client.initialPage).
Proof.
  apply (blank_input_is_ignored (fun _ => Throw TypeError)
           (Client.setInput (lit "   ") Client.initialPage)).
  reflexivity.
Defined.

(** The typing indicator is removed wherever it is by then: when the two
    [await]s are over on a page that still holds the indicator, whatever
    was added around it meanwhile, the indicator alone is removed and the
    other messages stay in their order.  For a body that is not [null] one
    bot node is appended, assigned the reply, or [No reply] for a reply
    that is missing or empty.  After a failure of the request the error is
    written to the console and one bot node is appended, assigned the
    error sentence.  For the body [null] the indicator is removed, then
    the read of [data.reply] throws: the [TypeError] is written to the
    console, nothing is appended, and the handler ends with the
    [NotFoundError] of the second [removeChild]. *)
Theorem answer_replaces_typing_indicator
        (typing : Client.Node) (outcome : result Client.Json)
        (pg : Client.Page) (l1 l2 : list Client.Node) :
  Client.children pg = l1 ++ typing :: l2 ->
  NoDup (List.map Client.nodeId (Client.children pg)) ->
  Client.submitFinish (Some typing) outcome pg =
  (match outcome with
   | Return Client.JsonNull => Throw (Error (lit "NotFoundError"))
   | _ => Return tt
   end,
   {| Client.children :=
        (l1 ++ l2)
        ++ match outcome with
           | Return (Client.JsonValue v) =>
               [Client.message (Client.created pg) (lit "bot")
                  (fallback v (lit "No reply"))]
           | Return Client.JsonNull => []
           | Throw _ =>
               [Client.message (Client.created pg) (lit "bot")
                  (lit "Error aa gaya, please phir se try karo.")]
           end;
      Client.inputValue := Client.inputValue pg;
      Client.created :=
        match outcome with
        | Return Client.JsonNull => Client.created pg
        | _ => S (Client.created pg)
        end;
      Client.posted := Client.posted pg;
      Client.consoleErrors :=
        match outcome with
        | Return (Client.JsonValue _) => Client.consoleErrors pg
        | Return Client.JsonNull => TypeError :: Client.consoleErrors pg
        | Throw err => err :: Client.consoleErrors pg
        end |})
  /\ (forall n, In n (Client.botNodes (Client.created pg) outcome) ->
                Client.markup n <> []).
Proof.
  intros Hch Hnd. split.
  - rewrite (submitFinish_present typing outcome pg l1 l2 Hch Hnd).
    destruct outcome as [[|v]|err];
      cbn [Client.ending Client.botNodes Client.logged length app];
      rewrite ?Nat.add_0_r, ?Nat.add_1_r; reflexivity.
  - intros n Hn. destruct outcome as [[|[| |[|c s]]]|err]; simpl in Hn;
      try contradiction; destruct Hn as [<- | []]; vm_compute; discriminate.
Qed.

(** A submit of a non-blank input, with nothing else happening meanwhile:
    the trimmed text is posted and appended as the user's message, the
    input is emptied, and no typing indicator is left.  Then, as the
    request ends: for a body that is not [null] one bot node follows,
    assigned the reply (or [No reply]); after a failure one bot node
    follows, assigned the error sentence, and the error is on the console;
    for the body [null] no bot node follows and the handler ends with an
    error.  Node identities stay distinct. *)
Theorem submit_shows_message_and_answer
        (server : jsstring -> result Client.Json) (pg : Client.Page) :
  trim (Client.inputValue pg) <> [] ->
  Client.wellFormed pg ->
  let text := trim (Client.inputValue pg) in
  let k := Client.created pg in
  Client.submit server pg =
  (match server text with
   | Return Client.JsonNull => Throw (Error (lit "NotFoundError"))
   | _ => Return tt
   end,
   {| Client.children :=
        Client.children pg
        ++ Client.message k (lit "me") text
        :: match server text with
           | Return (Client.JsonValue v) =>
               [Client.message (k + 2) (lit "bot")
                  (fallback v (lit "No reply"))]
           | Return Client.JsonNull => []
           | Throw _ =>
               [Client.message (k + 2) (lit "bot")
                  (lit "Error aa gaya, please phir se try karo.")]
           end;
      Client.inputValue := [];
      Client.created :=
        match server text with
        | Return Client.JsonNull => k + 2
        | _ => k + 3
        end;
      Client.posted := text :: Client.posted pg;
      Client.consoleErrors :=
        match server text with
        | Return (Client.JsonValue _) => Client.consoleErrors pg
        | Return Client.JsonNull => TypeError :: Client.consoleErrors pg
        | Throw err => err :: Client.consoleErrors pg
        end |})%nat
  /\ Client.wellFormed (snd (Client.submit server pg)).
Proof.
  intros Hne [Hnd Hlt]. cbv zeta.
  assert (Hemp : isEmpty (trim (Client.inputValue pg)) = false)
    by (destruct (trim (Client.inputValue pg)); [contradiction | reflexivity]).
  set (text := trim (Client.inputValue pg)) in *.
  set (k := Client.created pg) in *.
  set (me := Client.message k (lit "me") text).
  set (typing := Client.message (S k) (lit "bot") Client.typingText).
  assert (Hfresh : forall i, i ∈ List.map Client.nodeId (Client.children pg) ->
                             (i < k)%nat).
  { intros i Hi. apply list_elem_of_fmap in Hi as (m & -> & Hm).
    rewrite Forall_forall in Hlt. apply (Hlt m Hm). }
  assert (Hsubmit :
    Client.submit server pg =
    (Client.ending (server text),
     {| Client.children :=
          (Client.children pg ++ [me])
          ++ Client.botNodes (S (S k)) (server text);
        Client.inputValue := [];
        Client.created :=
          (S (S k) + length (Client.botNodes (S (S k)) (server text)))%nat;
        Client.posted := text :: Client.posted pg;
        Client.consoleErrors :=
          Client.logged (server text) ++ Client.consoleErrors pg |})).
  { unfold Client.submit, Client.submitStart. fold text. rewrite Hemp.
    cbv zeta.
    set (pg3 := Client.addMessage Client.typingText (lit "bot")
                  (Client.setInput []
                     (Client.addMessage text (lit "me") pg))).
    assert (Hch : Client.children pg3
                  = (Client.children pg ++ [me]) ++ typing :: [])
      by reflexivity.
    rewrite Hch, last_snoc.
    rewrite (submitFinish_present typing (server text) (Client.post text pg3)
               (Client.children pg ++ [me]) [] Hch).
    - rewrite app_nil_r. reflexivity.
    - change (Client.children (Client.post text pg3))
        with (Client.children pg3).
      rewrite Hch, !List.map_app.
      cbn [List.map Client.nodeId me typing Client.message].
      apply NoDup_app. split; [|split].
      + apply NoDup_app. split; [exact Hnd|]. split.
        * intros i Hi Hin. apply Hfresh in Hi.
          apply list_elem_of_singleton in Hin. lia.
        * apply NoDup_singleton.
      + intros i Hi Hin. apply list_elem_of_singleton in Hin. subst i.
        apply elem_of_app in Hi as [Hi | Hi].
        * apply Hfresh in Hi. lia.
        * apply list_elem_of_singleton in Hi. lia.
      + apply NoDup_singleton. }
  split.
  - rewrite Hsubmit. destruct (server text) as [[|v]|err];
      cbn [Client.ending Client.botNodes Client.logged length app];
      rewrite <- ?app_assoc; cbn [app];
      replace (S (S k) + 0)%nat with (k + 2)%nat by lia;
      replace (S (S k) + 1)%nat with (k + 3)%nat by lia;
      replace (S (S k)) with (k + 2)%nat by lia; reflexivity.
  - rewrite Hsubmit. unfold Client.wellFormed.
    cbn [snd Client.children Client.created].
    assert (Hbot : forall n, In n (Client.botNodes (S (S k)) (server text)) ->
                             Client.nodeId n = S (S k)
                             /\ length (Client.botNodes (S (S k)) (server text))
                                = 1%nat).
    { intros n Hn. destruct (server text) as [[|v]|err]; simpl in Hn;
        try contradiction; destruct Hn as [<- | []]; auto. }
    split.
    + rewrite !List.map_app. cbn [List.map Client.nodeId me Client.message].
      apply NoDup_app. split; [|split].
      * apply NoDup_app. split; [exact Hnd|]. split.
        -- intros i Hi Hin. apply Hfresh in Hi.
           apply list_elem_of_singleton in Hin. lia.
        -- apply NoDup_singleton.
      * intros i Hi Hin. apply list_elem_of_fmap in Hin as (n & -> & Hn).
        apply list_elem_of_In, Hbot in Hn as [Hn _]. rewrite Hn in Hi.
        apply elem_of_app in Hi as [Hi | Hi].
        -- apply Hfresh in Hi. lia.
        -- apply list_elem_of_singleton in Hi. lia.
      * destruct (server text) as [[|v]|err]; simpl;
          [apply NoDup_nil_2 | apply NoDup_singleton | apply NoDup_singleton].
    + apply Forall_app. split; [apply Forall_app; split|].
      * eapply Forall_impl; [exact Hlt|]. intros m Hm. simpl in Hm. lia.
      * constructor; [|constructor]. unfold me, Client.message.
        cbn [Client.nodeId]. lia.
      * apply Forall_forall. intros n Hn.
        apply list_elem_of_In, Hbot in Hn as [Hid Hlen].
        rewrite Hid, Hlen. lia.
Qed.

Lemma answer_replaces_typing_indicator_witness :
  Client.children
    (snd (Client.submitFinish (Some firstTyping)
            (Return (Client.JsonValue (JString (lit "Booking found"))))
            bothSent))
  = [Client.message 0 (lit "bot") Client.welcomeText;
     Client.message 1 (lit "me") (lit "call 9876543210");
     Client.message 3 (lit "me") (lit "dress code?");
     Client.message 4 (lit "bot") Client.typingText;
     Client.message 5 (lit "bot") (lit "Booking found")].
Proof.
  destruct (answer_replaces_typing_indicator firstTyping
              (Return (Client.JsonValue (JString (lit "Booking found"))))
              bothSent
              [Client.message 0 (lit "bot") Client.welcomeText;
               Client.message 1 (lit "me") (lit "call 9876543210")]
              [Client.message 3 (lit "me") (lit "dress code?");
               Client.message 4 (lit "bot") Client.typingText])
    as [Hfinish _].
  - reflexivity.
  - apply (bool_decide_unpack _). vm_compute. exact I.
  - rewrite Hfinish. reflexivity.
Defined.

Lemma submit_shows_message_and_answer_witness :
  Client.submit (fun _ => Return Client.JsonNull)
    (Client.setInput (lit "  call 9876543210 ") Client.initialPage)
  = (Throw (Error (lit "NotFoundError")),
     {| Client.children :=
          [Client.message 0 (lit "bot") Client.welcomeText;
           Client.message 1 (lit "me") (lit "call 9876543210")];
        Client.inputValue := [];
        Client.created := 3;
        Client.posted := [lit "call 9876543210"];
        Client.consoleErrors := [TypeError] |}).
Proof.
  destruct (submit_shows_message_and_answer (fun _ => Return Client.JsonNull)
              (Client.setInput (lit "  call 9876543210 ") Client.initialPage))
    as [Hsubmit _].
  - vm_compute. discriminate.
  - split; [apply NoDup_singleton | repeat constructor].
  - rewrite Hsubmit. reflexivity.
Defined.

(** ** The prompt *)




(** The user prompt in closed form: the trimming takes away the two line
    breaks around the template and nothing else, so the context and the
    truncated message stand in the prompt as they are, the message between
    two double quotes, with nothing escaped. *)
Theorem user_prompt_embeds_message_verbatim (contextString um : jsstring) :
  userPrompt contextString um
  = lit "Here are all the current wedding details (from Google Sheets):"
    ++ [newline; newline] ++ contextString ++ [newline; newline]
    ++ lit "Guest message: " ++ [quote] ++ um ++ [quote]
    ++ [newline; newline] ++ lit "Now answer as per the rules.".
Proof.
  unfold userPrompt.
  set (body :=
         lit "ere are all the current wedding details (from Google Sheets):"
         ++ [newline; newline] ++ contextString ++ [newline; newline]
         ++ lit "Guest message: " ++ [quote] ++ um ++ [quote]
         ++ [newline; newline] ++ lit "Now answer as per the rules").
  transitivity (trim (newline :: 72 :: body ++ 46 :: [newline])).
  - f_equal. subst body.
    change (lit "Here are all the current wedding details (from Google Sheets):")
      with (72 :: lit "ere are all the current wedding details (from Google Sheets):").
    change (lit "Now answer as per the rules.")
      with (lit "Now answer as per the rules" ++ [46]).
    flatten_app. reflexivity.
  - rewrite trim_template by reflexivity. subst body.
    change (lit "Here are all the current wedding details (from Google Sheets):")
      with (72 :: lit "ere are all the current wedding details (from Google Sheets):").
    change (lit "Now answer as per the rules.")
      with (lit "Now answer as per the rules" ++ [46]).
    change (trimEnd [newline]) with (@nil N).
    flatten_app. reflexivity.
Qed.

(** ** The cache across a request *)

(** Once the snapshot is there, the rest of the request cannot lose it: a
    request whose load returned leaves that snapshot in the cache with the
    time stamp of the load, also when the request itself then fails (in
    the hotel join or at the completion API) and answers 500. *)
Theorem loaded_snapshot_survives_the_request
        (lower : jsstring -> jsstring)
        (parse : jsstring -> result (list Row)) (w : World) (message : jsval)
        (st st1 : Server) (d : EventData) :
  getEventData parse w st = (Return d, st1) ->
  let st' := snd (chat lower parse w message st) in
  cachedEventData st' = Some d
  /\ lastLoadedMs st' = lastLoadedMs st1
  /\ fetched st' = fetched st1.
Proof.
  intros Hget. cbv zeta. rewrite chat_stages, Hget.
  destruct (returned_snapshot_cached parse w st st1 d Hget) as [Hc _].
  pose proof (answer_state lower w (take 500 (messageString message)) d st1)
    as Hst.
  destruct (answer lower w _ d st1) as [[r|err] st2]; simpl in *;
    destruct Hst as [-> | [_ ->]]; simpl; auto.
Qed.

Lemma loaded_snapshot_survives_the_request_witness :
  fst (chat (fun s => s) sheetParse sheetWorld (JString (lit "9876543210"))
         initialServer) = errorResponse
  /\ cachedEventData
       (snd (chat (fun s => s) sheetParse sheetWorld
               (JString (lit "9876543210")) initialServer))
     = Some loadedSnapshot.
Proof.
  split; [reflexivity|].
  apply (loaded_snapshot_survives_the_request (fun s => s) sheetParse
           sheetWorld (JString (lit "9876543210")) initialServer
           loadedServer loadedSnapshot).
  reflexivity.
Defined.

Lemma hotel_join_outcomes_witness :
  findHotel (fun s => s)
    [Hotel.Build (JString (lit "Taj")) JUndefined JUndefined JUndefined
       JUndefined JUndefined JUndefined JUndefined JUndefined;
     Hotel.Build JUndefined JUndefined JUndefined JUndefined JUndefined
       JUndefined JUndefined JUndefined JUndefined]
    (Guest.Build JUndefined JUndefined (JString (lit "Oberoi")) JUndefined
       JUndefined)
  = Throw TypeError.
Proof.
  apply (proj2 (proj2 (hotel_join_outcomes (fun s => s) _ _)) TypeError).
  split; [reflexivity|].
  eexists [_], _, []. split; [reflexivity|]. split.
  - constructor; [|constructor]. split; [eexists; reflexivity | reflexivity].
  - intros [s Hs]. discriminate.
Defined.

(** ** The call scenario *)

Lemma streq_refl (s : jsstring) : streq s s = true.
Proof. apply streq_true_iff. reflexivity. Qed.

(** The call scenario over a hotel list that holds the guest's hotel under
    its name: the booking reply with the hotel's own fields. *)
Lemma answer_call_at_taj (lower : jsstring -> jsstring) (w : World)
      (ED : EventData) (st : Server) :
  guests ED = [callGuest] -> hotels ED = [tajHotel] ->
  answer lower w callMessage ED st
  = (Return {| statusCode := 200; reply := callReply |}, st).
Proof.
  intros Hg Hh.
  rewrite (answer_Found lower w callMessage ED st callGuest)
    by (rewrite Hg; reflexivity).
  rewrite Hh, (findHotel_match lower tajHotel [] callGuest).
  - rewrite bookingReply_shown. reflexivity.
  - eexists. reflexivity.
  - unfold hotelMatchesb. simpl. apply streq_refl.
Qed.

(** C4, at an input where the code fails.  The guest of the call scenario
    (stored phone [+91-9876543210], digits 919876543210, which end with
    the query 9876543210 of the message) is found.  But in the deployment
    whose hotels sheet has no [name] column the reply is not sent: the
    hotel join throws a [TypeError] on the hotel's missing name, and the
    request ends with the status 500 and the generic apology, with neither
    the guest's name nor a hotel field nor a placeholder in it.  With the
    column titled [name] the same request gets the booking reply, with the
    fields of the hotel and the placeholders for the missing ones. *)
Theorem call_scenario_breaks_on_nameless_hotel
        (lower : jsstring -> jsstring) :
  let message := JString callMessage in
  let result := chat lower callParse (callWorld hotelsCsv) message
                  initialServer in
  (exists ED,
      cachedEventData (snd result) = Some ED
      /\ guests ED = [callGuest]
      /\ Guest.phone callGuest = JString (lit "+91-9876543210")
      /\ phoneRegexMatch callMessage = Some (lit "9876543210")
      /\ List.filter isDigit (lit "+91-9876543210") = lit "919876543210"
      /\ lit "9876543210" `suffix_of` lit "919876543210"
      /\ resolveBooking callMessage (guests ED) = Return (Found callGuest)
      /\ Forall (fun h => Hotel.name h = JUndefined) (hotels ED)
      /\ findHotel lower (hotels ED) callGuest = Throw TypeError)
  /\ fst result = {| statusCode := 500; reply := genericApology |}
  /\ consoleErrors (snd result) = [TypeError]
  /\ fst (chat lower callParse (callWorld namedHotelsCsv) message
            initialServer)
     = {| statusCode := 200; reply := callReply |}.
Proof.
  cbv zeta. split; [|split; [reflexivity | split; [reflexivity|]]].
  - eexists. split; [reflexivity|]. split; [reflexivity|].
    split; [reflexivity|]. split; [reflexivity|]. split; [reflexivity|].
    split; [exists (lit "91"); reflexivity|]. split; [reflexivity|].
    split; [repeat constructor | reflexivity].
  - rewrite chat_stages.
    assert (Hget : exists ED st1,
               getEventData callParse (callWorld namedHotelsCsv) initialServer
               = (Return ED, st1)
               /\ guests ED = [callGuest] /\ hotels ED = [tajHotel]).
    { eexists. eexists. split; [vm_compute; reflexivity|].
      split; reflexivity. }
    destruct Hget as (ED & st1 & -> & Hg & Hh).
    change (take 500 (messageString (JString callMessage))) with callMessage.
    rewrite (answer_call_at_taj lower _ ED st1 Hg Hh). reflexivity.
Qed.
